(** * QuotexTrading: the Telegram signal reader and the live follower

    A shallow embedding of [app/signal_reader_telegram.py] and of
    [app/telegram_signal_live.py], and the properties of the block parser,
    the schedule resolver and the admission filter established over it.

    Python [str] values are sequences of Unicode code points.  The source
    files spell their marker glyphs as sequences of three or four Latin-1 and
    punctuation code points (the asset marker is U+00F0 U+0178 U+2019
    U+00B3, and so on); the embedding uses exactly those code points. *)

From Stdlib Require Import NArith ZArith QArith Qround Lia List Ascii String.
From stdpp Require Import base option list strings gmap.

Set Default Proof Using "Type".

(** ** Python text: code points, character classes, case mappings *)

Module Text.
Local Open Scope N_scope.

Abbreviation pystr := (list N).

(** An ASCII literal as a sequence of code points. *)
Definition lit (s : string) : pystr :=
  List.map N_of_ascii (list_ascii_of_string s).

Definition in_ranges (rs : list (N * N)) (c : N) : bool :=
  existsb (fun r => (fst r <=? c) && (c <=? snd r)) rs.

(** [str.isspace], which is also the class [\s] of [re] on [str] patterns and
    the set removed by [str.strip()]. *)
Definition isspace : N -> bool :=
  in_ranges [(0x9, 0xD); (0x1C, 0x20); (0x85, 0x85); (0xA0, 0xA0);
             (0x1680, 0x1680); (0x2000, 0x200A); (0x2028, 0x2029);
             (0x202F, 0x202F); (0x205F, 0x205F); (0x3000, 0x3000)].

(** The code points of the digit zero in each decimal script (general
    category Nd): the nine digits that follow each of them are 1..9.  This is
    the class [\d] of [re] and the digits [int()] accepts. *)
Definition digit_zeros : list N :=
  [0x30; 0x660; 0x6F0; 0x7C0; 0x966; 0x9E6; 0xA66; 0xAE6; 0xB66; 0xBE6;
   0xC66; 0xCE6; 0xD66; 0xDE6; 0xE50; 0xED0; 0xF20; 0x1040; 0x1090; 0x17E0;
   0x1810; 0x1946; 0x19D0; 0x1A80; 0x1A90; 0x1B50; 0x1BB0; 0x1C40; 0x1C50;
   0xA620; 0xA8D0; 0xA900; 0xA9D0; 0xA9F0; 0xAA50; 0xABF0; 0xFF10; 0x104A0;
   0x10D30; 0x11066; 0x110F0; 0x11136; 0x111D0; 0x112F0; 0x11450; 0x114D0;
   0x11650; 0x116C0; 0x11730; 0x118E0; 0x11950; 0x11C50; 0x11D50; 0x11DA0;
   0x16A60; 0x16AC0; 0x16B50; 0x1D7CE; 0x1D7D8; 0x1D7E2; 0x1D7EC; 0x1D7F6;
   0x1E140; 0x1E2F0; 0x1E950; 0x1FBF0].

Definition digit_value (c : N) : option N :=
  match List.find (fun z => (z <=? c) && (c <? z + 10)) digit_zeros with
  | Some z => Some (c - z)
  | None => None
  end.

Definition isdigit (c : N) : bool :=
  match digit_value c with Some _ => true | None => false end.

Definition is_ascii_digit (c : N) : bool := (0x30 <=? c) && (c <=? 0x39).

(** The class [\w] of [re] on [str] patterns: [str.isalnum] or the
    underscore. *)
Definition word_ranges : list (N * N) :=
  [
    (0x30, 0x39); (0x41, 0x5A); (0x5F, 0x5F); (0x61, 0x7A); (0xAA, 0xAA);
    (0xB2, 0xB3); (0xB5, 0xB5); (0xB9, 0xBA); (0xBC, 0xBE); (0xC0, 0xD6);
    (0xD8, 0xF6); (0xF8, 0x2C1); (0x2C6, 0x2D1); (0x2E0, 0x2E4);
    (0x2EC, 0x2EC); (0x2EE, 0x2EE); (0x370, 0x374); (0x376, 0x377);
    (0x37A, 0x37D); (0x37F, 0x37F); (0x386, 0x386); (0x388, 0x38A);
    (0x38C, 0x38C); (0x38E, 0x3A1); (0x3A3, 0x3F5); (0x3F7, 0x481);
    (0x48A, 0x52F); (0x531, 0x556); (0x559, 0x559); (0x560, 0x588);
    (0x5D0, 0x5EA); (0x5EF, 0x5F2); (0x620, 0x64A); (0x660, 0x669);
    (0x66E, 0x66F); (0x671, 0x6D3); (0x6D5, 0x6D5); (0x6E5, 0x6E6);
    (0x6EE, 0x6FC); (0x6FF, 0x6FF); (0x710, 0x710); (0x712, 0x72F);
    (0x74D, 0x7A5); (0x7B1, 0x7B1); (0x7C0, 0x7EA); (0x7F4, 0x7F5);
    (0x7FA, 0x7FA); (0x800, 0x815); (0x81A, 0x81A); (0x824, 0x824);
    (0x828, 0x828); (0x840, 0x858); (0x860, 0x86A); (0x870, 0x887);
    (0x889, 0x88E); (0x8A0, 0x8C9); (0x904, 0x939); (0x93D, 0x93D);
    (0x950, 0x950); (0x958, 0x961); (0x966, 0x96F); (0x971, 0x980);
    (0x985, 0x98C); (0x98F, 0x990); (0x993, 0x9A8); (0x9AA, 0x9B0);
    (0x9B2, 0x9B2); (0x9B6, 0x9B9); (0x9BD, 0x9BD); (0x9CE, 0x9CE);
    (0x9DC, 0x9DD); (0x9DF, 0x9E1); (0x9E6, 0x9F1); (0x9F4, 0x9F9);
    (0x9FC, 0x9FC); (0xA05, 0xA0A); (0xA0F, 0xA10); (0xA13, 0xA28);
    (0xA2A, 0xA30); (0xA32, 0xA33); (0xA35, 0xA36); (0xA38, 0xA39);
    (0xA59, 0xA5C); (0xA5E, 0xA5E); (0xA66, 0xA6F); (0xA72, 0xA74);
    (0xA85, 0xA8D); (0xA8F, 0xA91); (0xA93, 0xAA8); (0xAAA, 0xAB0);
    (0xAB2, 0xAB3); (0xAB5, 0xAB9); (0xABD, 0xABD); (0xAD0, 0xAD0);
    (0xAE0, 0xAE1); (0xAE6, 0xAEF); (0xAF9, 0xAF9); (0xB05, 0xB0C);
    (0xB0F, 0xB10); (0xB13, 0xB28); (0xB2A, 0xB30); (0xB32, 0xB33);
    (0xB35, 0xB39); (0xB3D, 0xB3D); (0xB5C, 0xB5D); (0xB5F, 0xB61);
    (0xB66, 0xB6F); (0xB71, 0xB77); (0xB83, 0xB83); (0xB85, 0xB8A);
    (0xB8E, 0xB90); (0xB92, 0xB95); (0xB99, 0xB9A); (0xB9C, 0xB9C);
    (0xB9E, 0xB9F); (0xBA3, 0xBA4); (0xBA8, 0xBAA); (0xBAE, 0xBB9);
    (0xBD0, 0xBD0); (0xBE6, 0xBF2); (0xC05, 0xC0C); (0xC0E, 0xC10);
    (0xC12, 0xC28); (0xC2A, 0xC39); (0xC3D, 0xC3D); (0xC58, 0xC5A);
    (0xC5D, 0xC5D); (0xC60, 0xC61); (0xC66, 0xC6F); (0xC78, 0xC7E);
    (0xC80, 0xC80); (0xC85, 0xC8C); (0xC8E, 0xC90); (0xC92, 0xCA8);
    (0xCAA, 0xCB3); (0xCB5, 0xCB9); (0xCBD, 0xCBD); (0xCDD, 0xCDE);
    (0xCE0, 0xCE1); (0xCE6, 0xCEF); (0xCF1, 0xCF2); (0xD04, 0xD0C);
    (0xD0E, 0xD10); (0xD12, 0xD3A); (0xD3D, 0xD3D); (0xD4E, 0xD4E);
    (0xD54, 0xD56); (0xD58, 0xD61); (0xD66, 0xD78); (0xD7A, 0xD7F);
    (0xD85, 0xD96); (0xD9A, 0xDB1); (0xDB3, 0xDBB); (0xDBD, 0xDBD);
    (0xDC0, 0xDC6); (0xDE6, 0xDEF); (0xE01, 0xE30); (0xE32, 0xE33);
    (0xE40, 0xE46); (0xE50, 0xE59); (0xE81, 0xE82); (0xE84, 0xE84);
    (0xE86, 0xE8A); (0xE8C, 0xEA3); (0xEA5, 0xEA5); (0xEA7, 0xEB0);
    (0xEB2, 0xEB3); (0xEBD, 0xEBD); (0xEC0, 0xEC4); (0xEC6, 0xEC6);
    (0xED0, 0xED9); (0xEDC, 0xEDF); (0xF00, 0xF00); (0xF20, 0xF33);
    (0xF40, 0xF47); (0xF49, 0xF6C); (0xF88, 0xF8C); (0x1000, 0x102A);
    (0x103F, 0x1049); (0x1050, 0x1055); (0x105A, 0x105D); (0x1061, 0x1061);
    (0x1065, 0x1066); (0x106E, 0x1070); (0x1075, 0x1081); (0x108E, 0x108E);
    (0x1090, 0x1099); (0x10A0, 0x10C5); (0x10C7, 0x10C7); (0x10CD, 0x10CD);
    (0x10D0, 0x10FA); (0x10FC, 0x1248); (0x124A, 0x124D); (0x1250, 0x1256);
    (0x1258, 0x1258); (0x125A, 0x125D); (0x1260, 0x1288); (0x128A, 0x128D);
    (0x1290, 0x12B0); (0x12B2, 0x12B5); (0x12B8, 0x12BE); (0x12C0, 0x12C0);
    (0x12C2, 0x12C5); (0x12C8, 0x12D6); (0x12D8, 0x1310); (0x1312, 0x1315);
    (0x1318, 0x135A); (0x1369, 0x137C); (0x1380, 0x138F); (0x13A0, 0x13F5);
    (0x13F8, 0x13FD); (0x1401, 0x166C); (0x166F, 0x167F); (0x1681, 0x169A);
    (0x16A0, 0x16EA); (0x16EE, 0x16F8); (0x1700, 0x1711); (0x171F, 0x1731);
    (0x1740, 0x1751); (0x1760, 0x176C); (0x176E, 0x1770); (0x1780, 0x17B3);
    (0x17D7, 0x17D7); (0x17DC, 0x17DC); (0x17E0, 0x17E9); (0x17F0, 0x17F9);
    (0x1810, 0x1819); (0x1820, 0x1878); (0x1880, 0x1884); (0x1887, 0x18A8);
    (0x18AA, 0x18AA); (0x18B0, 0x18F5); (0x1900, 0x191E); (0x1946, 0x196D);
    (0x1970, 0x1974); (0x1980, 0x19AB); (0x19B0, 0x19C9); (0x19D0, 0x19DA);
    (0x1A00, 0x1A16); (0x1A20, 0x1A54); (0x1A80, 0x1A89); (0x1A90, 0x1A99);
    (0x1AA7, 0x1AA7); (0x1B05, 0x1B33); (0x1B45, 0x1B4C); (0x1B50, 0x1B59);
    (0x1B83, 0x1BA0); (0x1BAE, 0x1BE5); (0x1C00, 0x1C23); (0x1C40, 0x1C49);
    (0x1C4D, 0x1C7D); (0x1C80, 0x1C88); (0x1C90, 0x1CBA); (0x1CBD, 0x1CBF);
    (0x1CE9, 0x1CEC); (0x1CEE, 0x1CF3); (0x1CF5, 0x1CF6); (0x1CFA, 0x1CFA);
    (0x1D00, 0x1DBF); (0x1E00, 0x1F15); (0x1F18, 0x1F1D); (0x1F20, 0x1F45);
    (0x1F48, 0x1F4D); (0x1F50, 0x1F57); (0x1F59, 0x1F59); (0x1F5B, 0x1F5B);
    (0x1F5D, 0x1F5D); (0x1F5F, 0x1F7D); (0x1F80, 0x1FB4); (0x1FB6, 0x1FBC);
    (0x1FBE, 0x1FBE); (0x1FC2, 0x1FC4); (0x1FC6, 0x1FCC); (0x1FD0, 0x1FD3);
    (0x1FD6, 0x1FDB); (0x1FE0, 0x1FEC); (0x1FF2, 0x1FF4); (0x1FF6, 0x1FFC);
    (0x2070, 0x2071); (0x2074, 0x2079); (0x207F, 0x2089); (0x2090, 0x209C);
    (0x2102, 0x2102); (0x2107, 0x2107); (0x210A, 0x2113); (0x2115, 0x2115);
    (0x2119, 0x211D); (0x2124, 0x2124); (0x2126, 0x2126); (0x2128, 0x2128);
    (0x212A, 0x212D); (0x212F, 0x2139); (0x213C, 0x213F); (0x2145, 0x2149);
    (0x214E, 0x214E); (0x2150, 0x2189); (0x2460, 0x249B); (0x24EA, 0x24FF);
    (0x2776, 0x2793); (0x2C00, 0x2CE4); (0x2CEB, 0x2CEE); (0x2CF2, 0x2CF3);
    (0x2CFD, 0x2CFD); (0x2D00, 0x2D25); (0x2D27, 0x2D27); (0x2D2D, 0x2D2D);
    (0x2D30, 0x2D67); (0x2D6F, 0x2D6F); (0x2D80, 0x2D96); (0x2DA0, 0x2DA6);
    (0x2DA8, 0x2DAE); (0x2DB0, 0x2DB6); (0x2DB8, 0x2DBE); (0x2DC0, 0x2DC6);
    (0x2DC8, 0x2DCE); (0x2DD0, 0x2DD6); (0x2DD8, 0x2DDE); (0x2E2F, 0x2E2F);
    (0x3005, 0x3007); (0x3021, 0x3029); (0x3031, 0x3035); (0x3038, 0x303C);
    (0x3041, 0x3096); (0x309D, 0x309F); (0x30A1, 0x30FA); (0x30FC, 0x30FF);
    (0x3105, 0x312F); (0x3131, 0x318E); (0x3192, 0x3195); (0x31A0, 0x31BF);
    (0x31F0, 0x31FF); (0x3220, 0x3229); (0x3248, 0x324F); (0x3251, 0x325F);
    (0x3280, 0x3289); (0x32B1, 0x32BF); (0x3400, 0x4DBF); (0x4E00, 0xA48C);
    (0xA4D0, 0xA4FD); (0xA500, 0xA60C); (0xA610, 0xA62B); (0xA640, 0xA66E);
    (0xA67F, 0xA69D); (0xA6A0, 0xA6EF); (0xA717, 0xA71F); (0xA722, 0xA788);
    (0xA78B, 0xA7CA); (0xA7D0, 0xA7D1); (0xA7D3, 0xA7D3); (0xA7D5, 0xA7D9);
    (0xA7F2, 0xA801); (0xA803, 0xA805); (0xA807, 0xA80A); (0xA80C, 0xA822);
    (0xA830, 0xA835); (0xA840, 0xA873); (0xA882, 0xA8B3); (0xA8D0, 0xA8D9);
    (0xA8F2, 0xA8F7); (0xA8FB, 0xA8FB); (0xA8FD, 0xA8FE); (0xA900, 0xA925);
    (0xA930, 0xA946); (0xA960, 0xA97C); (0xA984, 0xA9B2); (0xA9CF, 0xA9D9);
    (0xA9E0, 0xA9E4); (0xA9E6, 0xA9FE); (0xAA00, 0xAA28); (0xAA40, 0xAA42);
    (0xAA44, 0xAA4B); (0xAA50, 0xAA59); (0xAA60, 0xAA76); (0xAA7A, 0xAA7A);
    (0xAA7E, 0xAAAF); (0xAAB1, 0xAAB1); (0xAAB5, 0xAAB6); (0xAAB9, 0xAABD);
    (0xAAC0, 0xAAC0); (0xAAC2, 0xAAC2); (0xAADB, 0xAADD); (0xAAE0, 0xAAEA);
    (0xAAF2, 0xAAF4); (0xAB01, 0xAB06); (0xAB09, 0xAB0E); (0xAB11, 0xAB16);
    (0xAB20, 0xAB26); (0xAB28, 0xAB2E); (0xAB30, 0xAB5A); (0xAB5C, 0xAB69);
    (0xAB70, 0xABE2); (0xABF0, 0xABF9); (0xAC00, 0xD7A3); (0xD7B0, 0xD7C6);
    (0xD7CB, 0xD7FB); (0xF900, 0xFA6D); (0xFA70, 0xFAD9); (0xFB00, 0xFB06);
    (0xFB13, 0xFB17); (0xFB1D, 0xFB1D); (0xFB1F, 0xFB28); (0xFB2A, 0xFB36);
    (0xFB38, 0xFB3C); (0xFB3E, 0xFB3E); (0xFB40, 0xFB41); (0xFB43, 0xFB44);
    (0xFB46, 0xFBB1); (0xFBD3, 0xFD3D); (0xFD50, 0xFD8F); (0xFD92, 0xFDC7);
    (0xFDF0, 0xFDFB); (0xFE70, 0xFE74); (0xFE76, 0xFEFC); (0xFF10, 0xFF19);
    (0xFF21, 0xFF3A); (0xFF41, 0xFF5A); (0xFF66, 0xFFBE); (0xFFC2, 0xFFC7);
    (0xFFCA, 0xFFCF); (0xFFD2, 0xFFD7); (0xFFDA, 0xFFDC); (0x10000, 0x1000B);
    (0x1000D, 0x10026); (0x10028, 0x1003A); (0x1003C, 0x1003D);
    (0x1003F, 0x1004D); (0x10050, 0x1005D); (0x10080, 0x100FA);
    (0x10107, 0x10133); (0x10140, 0x10178); (0x1018A, 0x1018B);
    (0x10280, 0x1029C); (0x102A0, 0x102D0); (0x102E1, 0x102FB);
    (0x10300, 0x10323); (0x1032D, 0x1034A); (0x10350, 0x10375);
    (0x10380, 0x1039D); (0x103A0, 0x103C3); (0x103C8, 0x103CF);
    (0x103D1, 0x103D5); (0x10400, 0x1049D); (0x104A0, 0x104A9);
    (0x104B0, 0x104D3); (0x104D8, 0x104FB); (0x10500, 0x10527);
    (0x10530, 0x10563); (0x10570, 0x1057A); (0x1057C, 0x1058A);
    (0x1058C, 0x10592); (0x10594, 0x10595); (0x10597, 0x105A1);
    (0x105A3, 0x105B1); (0x105B3, 0x105B9); (0x105BB, 0x105BC);
    (0x10600, 0x10736); (0x10740, 0x10755); (0x10760, 0x10767);
    (0x10780, 0x10785); (0x10787, 0x107B0); (0x107B2, 0x107BA);
    (0x10800, 0x10805); (0x10808, 0x10808); (0x1080A, 0x10835);
    (0x10837, 0x10838); (0x1083C, 0x1083C); (0x1083F, 0x10855);
    (0x10858, 0x10876); (0x10879, 0x1089E); (0x108A7, 0x108AF);
    (0x108E0, 0x108F2); (0x108F4, 0x108F5); (0x108FB, 0x1091B);
    (0x10920, 0x10939); (0x10980, 0x109B7); (0x109BC, 0x109CF);
    (0x109D2, 0x10A00); (0x10A10, 0x10A13); (0x10A15, 0x10A17);
    (0x10A19, 0x10A35); (0x10A40, 0x10A48); (0x10A60, 0x10A7E);
    (0x10A80, 0x10A9F); (0x10AC0, 0x10AC7); (0x10AC9, 0x10AE4);
    (0x10AEB, 0x10AEF); (0x10B00, 0x10B35); (0x10B40, 0x10B55);
    (0x10B58, 0x10B72); (0x10B78, 0x10B91); (0x10BA9, 0x10BAF);
    (0x10C00, 0x10C48); (0x10C80, 0x10CB2); (0x10CC0, 0x10CF2);
    (0x10CFA, 0x10D23); (0x10D30, 0x10D39); (0x10E60, 0x10E7E);
    (0x10E80, 0x10EA9); (0x10EB0, 0x10EB1); (0x10F00, 0x10F27);
    (0x10F30, 0x10F45); (0x10F51, 0x10F54); (0x10F70, 0x10F81);
    (0x10FB0, 0x10FCB); (0x10FE0, 0x10FF6); (0x11003, 0x11037);
    (0x11052, 0x1106F); (0x11071, 0x11072); (0x11075, 0x11075);
    (0x11083, 0x110AF); (0x110D0, 0x110E8); (0x110F0, 0x110F9);
    (0x11103, 0x11126); (0x11136, 0x1113F); (0x11144, 0x11144);
    (0x11147, 0x11147); (0x11150, 0x11172); (0x11176, 0x11176);
    (0x11183, 0x111B2); (0x111C1, 0x111C4); (0x111D0, 0x111DA);
    (0x111DC, 0x111DC); (0x111E1, 0x111F4); (0x11200, 0x11211);
    (0x11213, 0x1122B); (0x11280, 0x11286); (0x11288, 0x11288);
    (0x1128A, 0x1128D); (0x1128F, 0x1129D); (0x1129F, 0x112A8);
    (0x112B0, 0x112DE); (0x112F0, 0x112F9); (0x11305, 0x1130C);
    (0x1130F, 0x11310); (0x11313, 0x11328); (0x1132A, 0x11330);
    (0x11332, 0x11333); (0x11335, 0x11339); (0x1133D, 0x1133D);
    (0x11350, 0x11350); (0x1135D, 0x11361); (0x11400, 0x11434);
    (0x11447, 0x1144A); (0x11450, 0x11459); (0x1145F, 0x11461);
    (0x11480, 0x114AF); (0x114C4, 0x114C5); (0x114C7, 0x114C7);
    (0x114D0, 0x114D9); (0x11580, 0x115AE); (0x115D8, 0x115DB);
    (0x11600, 0x1162F); (0x11644, 0x11644); (0x11650, 0x11659);
    (0x11680, 0x116AA); (0x116B8, 0x116B8); (0x116C0, 0x116C9);
    (0x11700, 0x1171A); (0x11730, 0x1173B); (0x11740, 0x11746);
    (0x11800, 0x1182B); (0x118A0, 0x118F2); (0x118FF, 0x11906);
    (0x11909, 0x11909); (0x1190C, 0x11913); (0x11915, 0x11916);
    (0x11918, 0x1192F); (0x1193F, 0x1193F); (0x11941, 0x11941);
    (0x11950, 0x11959); (0x119A0, 0x119A7); (0x119AA, 0x119D0);
    (0x119E1, 0x119E1); (0x119E3, 0x119E3); (0x11A00, 0x11A00);
    (0x11A0B, 0x11A32); (0x11A3A, 0x11A3A); (0x11A50, 0x11A50);
    (0x11A5C, 0x11A89); (0x11A9D, 0x11A9D); (0x11AB0, 0x11AF8);
    (0x11C00, 0x11C08); (0x11C0A, 0x11C2E); (0x11C40, 0x11C40);
    (0x11C50, 0x11C6C); (0x11C72, 0x11C8F); (0x11D00, 0x11D06);
    (0x11D08, 0x11D09); (0x11D0B, 0x11D30); (0x11D46, 0x11D46);
    (0x11D50, 0x11D59); (0x11D60, 0x11D65); (0x11D67, 0x11D68);
    (0x11D6A, 0x11D89); (0x11D98, 0x11D98); (0x11DA0, 0x11DA9);
    (0x11EE0, 0x11EF2); (0x11FB0, 0x11FB0); (0x11FC0, 0x11FD4);
    (0x12000, 0x12399); (0x12400, 0x1246E); (0x12480, 0x12543);
    (0x12F90, 0x12FF0); (0x13000, 0x1342E); (0x14400, 0x14646);
    (0x16800, 0x16A38); (0x16A40, 0x16A5E); (0x16A60, 0x16A69);
    (0x16A70, 0x16ABE); (0x16AC0, 0x16AC9); (0x16AD0, 0x16AED);
    (0x16B00, 0x16B2F); (0x16B40, 0x16B43); (0x16B50, 0x16B59);
    (0x16B5B, 0x16B61); (0x16B63, 0x16B77); (0x16B7D, 0x16B8F);
    (0x16E40, 0x16E96); (0x16F00, 0x16F4A); (0x16F50, 0x16F50);
    (0x16F93, 0x16F9F); (0x16FE0, 0x16FE1); (0x16FE3, 0x16FE3);
    (0x17000, 0x187F7); (0x18800, 0x18CD5); (0x18D00, 0x18D08);
    (0x1AFF0, 0x1AFF3); (0x1AFF5, 0x1AFFB); (0x1AFFD, 0x1AFFE);
    (0x1B000, 0x1B122); (0x1B150, 0x1B152); (0x1B164, 0x1B167);
    (0x1B170, 0x1B2FB); (0x1BC00, 0x1BC6A); (0x1BC70, 0x1BC7C);
    (0x1BC80, 0x1BC88); (0x1BC90, 0x1BC99); (0x1D2E0, 0x1D2F3);
    (0x1D360, 0x1D378); (0x1D400, 0x1D454); (0x1D456, 0x1D49C);
    (0x1D49E, 0x1D49F); (0x1D4A2, 0x1D4A2); (0x1D4A5, 0x1D4A6);
    (0x1D4A9, 0x1D4AC); (0x1D4AE, 0x1D4B9); (0x1D4BB, 0x1D4BB);
    (0x1D4BD, 0x1D4C3); (0x1D4C5, 0x1D505); (0x1D507, 0x1D50A);
    (0x1D50D, 0x1D514); (0x1D516, 0x1D51C); (0x1D51E, 0x1D539);
    (0x1D53B, 0x1D53E); (0x1D540, 0x1D544); (0x1D546, 0x1D546);
    (0x1D54A, 0x1D550); (0x1D552, 0x1D6A5); (0x1D6A8, 0x1D6C0);
    (0x1D6C2, 0x1D6DA); (0x1D6DC, 0x1D6FA); (0x1D6FC, 0x1D714);
    (0x1D716, 0x1D734); (0x1D736, 0x1D74E); (0x1D750, 0x1D76E);
    (0x1D770, 0x1D788); (0x1D78A, 0x1D7A8); (0x1D7AA, 0x1D7C2);
    (0x1D7C4, 0x1D7CB); (0x1D7CE, 0x1D7FF); (0x1DF00, 0x1DF1E);
    (0x1E100, 0x1E12C); (0x1E137, 0x1E13D); (0x1E140, 0x1E149);
    (0x1E14E, 0x1E14E); (0x1E290, 0x1E2AD); (0x1E2C0, 0x1E2EB);
    (0x1E2F0, 0x1E2F9); (0x1E7E0, 0x1E7E6); (0x1E7E8, 0x1E7EB);
    (0x1E7ED, 0x1E7EE); (0x1E7F0, 0x1E7FE); (0x1E800, 0x1E8C4);
    (0x1E8C7, 0x1E8CF); (0x1E900, 0x1E943); (0x1E94B, 0x1E94B);
    (0x1E950, 0x1E959); (0x1EC71, 0x1ECAB); (0x1ECAD, 0x1ECAF);
    (0x1ECB1, 0x1ECB4); (0x1ED01, 0x1ED2D); (0x1ED2F, 0x1ED3D);
    (0x1EE00, 0x1EE03); (0x1EE05, 0x1EE1F); (0x1EE21, 0x1EE22);
    (0x1EE24, 0x1EE24); (0x1EE27, 0x1EE27); (0x1EE29, 0x1EE32);
    (0x1EE34, 0x1EE37); (0x1EE39, 0x1EE39); (0x1EE3B, 0x1EE3B);
    (0x1EE42, 0x1EE42); (0x1EE47, 0x1EE47); (0x1EE49, 0x1EE49);
    (0x1EE4B, 0x1EE4B); (0x1EE4D, 0x1EE4F); (0x1EE51, 0x1EE52);
    (0x1EE54, 0x1EE54); (0x1EE57, 0x1EE57); (0x1EE59, 0x1EE59);
    (0x1EE5B, 0x1EE5B); (0x1EE5D, 0x1EE5D); (0x1EE5F, 0x1EE5F);
    (0x1EE61, 0x1EE62); (0x1EE64, 0x1EE64); (0x1EE67, 0x1EE6A);
    (0x1EE6C, 0x1EE72); (0x1EE74, 0x1EE77); (0x1EE79, 0x1EE7C);
    (0x1EE7E, 0x1EE7E); (0x1EE80, 0x1EE89); (0x1EE8B, 0x1EE9B);
    (0x1EEA1, 0x1EEA3); (0x1EEA5, 0x1EEA9); (0x1EEAB, 0x1EEBB);
    (0x1F100, 0x1F10C); (0x1FBF0, 0x1FBF9); (0x20000, 0x2A6DF);
    (0x2A700, 0x2B738); (0x2B740, 0x2B81D); (0x2B820, 0x2CEA1);
    (0x2CEB0, 0x2EBE0); (0x2F800, 0x2FA1D); (0x30000, 0x3134A)
  ].

Definition is_word : N -> bool := in_ranges word_ranges.

(** [str.lower] and [str.upper], one code point at a time.  The tables are
    those of Basic Latin, Latin-1 and Latin Extended-A (up to U+017F); a code
    point beyond U+017F is left as it is.  No code point beyond U+017F has a
    lower-case form that contains a character of the literals searched for
    in a lower-cased line below, nor an upper-case form that lets a line start
    with WIN, so the tests this program makes on [lower] and [upper] are those
    of Python on every line. *)
Definition even_odd_pairs (c : N) : bool :=
  ((0x100 <=? c) && (c <=? 0x12F)) || ((0x132 <=? c) && (c <=? 0x137))
  || ((0x14A <=? c) && (c <=? 0x177)).

Definition odd_even_pairs (c : N) : bool :=
  ((0x139 <=? c) && (c <=? 0x148)) || ((0x179 <=? c) && (c <=? 0x17E)).

Definition lower_cp (c : N) : pystr :=
  if (0x41 <=? c) && (c <=? 0x5A) then [c + 32]
  else if (0xC0 <=? c) && (c <=? 0xDE) && negb (c =? 0xD7) then [c + 32]
  else if c =? 0x130 then [0x69; 0x307]
  else if c =? 0x178 then [0xFF]
  else if even_odd_pairs c && N.even c then [c + 1]
  else if odd_even_pairs c && N.odd c then [c + 1]
  else [c].

Definition upper_cp (c : N) : pystr :=
  if (0x61 <=? c) && (c <=? 0x7A) then [c - 32]
  else if c =? 0xB5 then [0x39C]
  else if c =? 0xDF then [0x53; 0x53]
  else if (0xE0 <=? c) && (c <=? 0xFE) && negb (c =? 0xF7) then [c - 32]
  else if c =? 0xFF then [0x178]
  else if c =? 0x131 then [0x49]
  else if c =? 0x149 then [0x2BC; 0x4E]
  else if c =? 0x17F then [0x53]
  else if even_odd_pairs c && N.odd c then [c - 1]
  else if odd_even_pairs c && N.even c then [c - 1]
  else [c].

Definition lower (s : pystr) : pystr := flat_map lower_cp s.
Definition upper (s : pystr) : pystr := flat_map upper_cp s.

(** [str.title] on the words this program passes to it: the first cased
    character of a run in upper case, the rest in lower case. *)
Definition is_cased (c : N) : bool :=
  negb (match lower_cp c with [d] => d =? c | _ => false end)
  || negb (match upper_cp c with [d] => d =? c | _ => false end).

Fixpoint title_from (prev_cased : bool) (s : pystr) : pystr :=
  match s with
  | [] => []
  | c :: r =>
      (if prev_cased then lower_cp c
       else if c =? 0xDF then [0x53; 0x73] else upper_cp c)
      ++ title_from (is_cased c) r
  end.

Definition title : pystr -> pystr := title_from false.

(** String equality, prefix and substring tests. *)
Fixpoint str_eqb (a b : pystr) : bool :=
  match a, b with
  | [], [] => true
  | x :: a', y :: b' => (x =? y) && str_eqb a' b'
  | _, _ => false
  end.

Fixpoint startswith (s p : pystr) : bool :=
  match p, s with
  | [], _ => true
  | x :: p', y :: s' => (x =? y) && startswith s' p'
  | _ :: _, [] => false
  end.

(** [p in s] *)
Fixpoint contains (p s : pystr) : bool :=
  startswith s p ||
  match s with
  | [] => false
  | _ :: r => contains p r
  end.

(** [str.strip()] and [str.strip(chars)] *)
Fixpoint lstrip_with (f : N -> bool) (s : pystr) : pystr :=
  match s with
  | c :: r => if f c then lstrip_with f r else s
  | [] => []
  end.

Definition strip_with (f : N -> bool) (s : pystr) : pystr :=
  rev (lstrip_with f (rev (lstrip_with f s))).

Definition strip : pystr -> pystr := strip_with isspace.

(** [s.split(sep)] for a one-character separator: never the empty list. *)
Fixpoint split_on (sep : N) (s : pystr) : list pystr :=
  match s with
  | [] => [[]]
  | c :: r =>
      if c =? sep then [] :: split_on sep r
      else match split_on sep r with
           | h :: t => (c :: h) :: t
           | [] => [[c]]
           end
  end.

(** [sep.join(parts)] *)
Fixpoint join (sep : pystr) (parts : list pystr) : pystr :=
  match parts with
  | [] => []
  | [p] => p
  | p :: rest => p ++ sep ++ join sep rest
  end.

(** [int(s)] in base ten: surrounding white space, an optional sign, decimal
    digits of any script, single underscores between digits.  [None] stands
    for [ValueError].  (The interpreter's optional limit on the number of
    digits of a numeral, 4300 where it exists, is not modelled.) *)
Fixpoint int_digits (acc : N) (after_digit : bool) (s : pystr) : option N :=
  match s with
  | [] => if after_digit then Some acc else None
  | c :: r =>
      if c =? 0x5F then
        if after_digit then int_digits acc false r else None
      else
        match digit_value c with
        | Some d => int_digits (acc * 10 + d) true r
        | None => None
        end
  end.

Definition py_int (s : pystr) : option Z :=
  match strip s with
  | c :: r =>
      if c =? 0x2D then
        option_map (fun n => (- Z.of_N n)%Z) (int_digits 0 false r)
      else if c =? 0x2B then option_map Z.of_N (int_digits 0 false r)
      else option_map Z.of_N (int_digits 0 false (c :: r))
  | [] => None
  end.

(** The value of a numeral [digits] or [digits.digits] in ASCII digits, the
    only numerals the forecast and payout patterns capture.  Python's floats
    are modelled by the rationals they approximate; [None] stands for
    [ValueError]. *)
Fixpoint dec_digits (acc : N) (s : pystr) : option (N * pystr) :=
  match s with
  | c :: r =>
      if is_ascii_digit c then dec_digits (acc * 10 + (c - 0x30)) r
      else Some (acc, s)
  | [] => Some (acc, [])
  end.

Definition py_float (s : pystr) : option Q :=
  match s with
  | [] => None
  | c :: _ =>
      if is_ascii_digit c then
        match dec_digits 0 s with
        | Some (ip, []) => Some (inject_Z (Z.of_N ip))
        | Some (ip, 0x2E :: ((d :: _) as fr)) =>
            if is_ascii_digit d then
              match dec_digits 0 fr with
              | Some (fp, []) =>
                  Some (inject_Z (Z.of_N ip)
                        + Qmake (Z.of_N fp)
                            (Pos.pow 10 (Pos.of_nat (List.length fr))))%Q
              | _ => None
              end
            else None
        | _ => None
        end
      else None
  end.

End Text.

(** ** Exceptions *)

Inductive exn := ValueError | IndexError | OverflowError | ImportError.

Inductive outcome (A : Type) :=
| Returned (a : A)
| Raised (e : exn).
Arguments Returned {A} a.
Arguments Raised {A} e.

(** ** [signal_reader_telegram]: the field patterns *)

Module Reader.
Import Text.
Local Open Scope N_scope.

(** The marker glyphs, as the source spells them. *)
Definition ASSET_MARK : pystr := [0xF0; 0x178; 0x2019; 0xB3].
Definition TIMEFRAME_MARK : pystr := [0xF0; 0x178; 0x201D; 0xA5].
Definition TRADE_TIME_MARK : pystr := [0xE2; 0x152; 0x203A].
Definition TREND_MARK : pystr := [0xF0; 0x178; 0x161; 0xA6].
Definition FORECAST_MARK : pystr := [0xF0; 0x178; 0x201C; 0x2C6].
Definition PAYOUT_MARK : pystr := [0xF0; 0x178; 0x2019; 0xB8].
Definition UP_MARK : pystr := [0xF0; 0x178; 0x201D; 0xBC].
Definition DOWN_MARK : pystr := [0xF0; 0x178; 0x201D; 0xBD].

(** Under [re.IGNORECASE] a literal matches the code points with the same
    case folding.  For the literals of the patterns below these are the two
    cases of the letter and, for [s], the long s U+017F. *)
Definition fold_cp (c : N) : N :=
  if c =? 0x17F then 0x73
  else match lower_cp c with
       | [d] => d
       | _ => c
       end.

Definition ci_eq (p c : N) : bool := fold_cp p =? fold_cp c.

(** The pieces the anchored patterns are made of.  Each takes the rest of the
    line and gives what is left after the piece, or [None] where it does not
    match.  In every pattern below the piece that follows a repetition starts
    with a character the repetition cannot take, so the greedy match is the
    only one. *)
Definition ws (r : pystr) : pystr := lstrip_with isspace r.

Fixpoint lit_ci (p r : pystr) : option pystr :=
  match p, r with
  | [], _ => Some r
  | x :: p', y :: r' => if ci_eq x y then lit_ci p' r' else None
  | _ :: _, [] => None
  end.

Fixpoint span (f : N -> bool) (r : pystr) : pystr * pystr :=
  match r with
  | c :: r' =>
      if f c then let '(g, rest) := span f r' in (c :: g, rest)
      else ([], r)
  | [] => ([], [])
  end.

Definition many1 (f : N -> bool) (r : pystr) : option (pystr * pystr) :=
  match span f r with
  | ([], _) => None
  | (g, rest) => Some (g, rest)
  end.

Definition at_end (r : pystr) : bool :=
  match ws r with [] => true | _ => false end.

(** [[A-Z0-9\-_/]] under IGNORECASE: the ASCII letters in both cases, the
    digits, hyphen, underscore, slash, and the four letters U+0130, U+0131,
    U+017F and U+212A that fold into A-Z. *)
Definition is_asset_char (c : N) : bool :=
  ((0x41 <=? c) && (c <=? 0x5A)) || ((0x61 <=? c) && (c <=? 0x7A))
  || is_ascii_digit c || (c =? 0x2D) || (c =? 0x5F) || (c =? 0x2F)
  || (c =? 0x130) || (c =? 0x131) || (c =? 0x17F) || (c =? 0x212A).

(** [_ASSET_LINE_RE.match(s)], giving group 1. *)
Definition _ASSET_LINE_RE (s : pystr) : option pystr :=
  r ← lit_ci ASSET_MARK (ws s);
  '(g, r) ← many1 is_asset_char (ws r);
  if at_end r then Some g else None.

(** [_TIMEFRAME_RE.match(s)], giving group 1. *)
Definition _TIMEFRAME_RE (s : pystr) : option pystr :=
  r ← lit_ci TIMEFRAME_MARK (ws s);
  r ← lit_ci (lit "M") (ws r);
  '(g, r) ← many1 isdigit r;
  if at_end r then Some g else None.

(** [_TRADE_TIME_RE.match(s)], giving group 1: one digit, or one of 0, 1, 2
    and a digit, then a colon and two digits, then perhaps a colon and two
    more. *)
Definition is_0_2 (c : N) : bool := (0x30 <=? c) && (c <=? 0x32).

Definition hour_one_digit (r : pystr) : option (pystr * pystr) :=
  match r with
  | a :: 0x3A :: r' => if isdigit a then Some ([a; 0x3A], r') else None
  | _ => None
  end.

Definition hour_part (r : pystr) : option (pystr * pystr) :=
  match r with
  | a :: b :: 0x3A :: r' =>
      if is_0_2 a && isdigit b then Some ([a; b; 0x3A], r')
      else hour_one_digit r
  | _ => hour_one_digit r
  end.

Definition two_digits (r : pystr) : option (pystr * pystr) :=
  match r with
  | a :: b :: r' => if isdigit a && isdigit b then Some ([a; b], r') else None
  | _ => None
  end.

Definition seconds_part (r : pystr) : pystr * pystr :=
  match r with
  | 0x3A :: r' =>
      match two_digits r' with
      | Some (ss, r'') => (0x3A :: ss, r'')
      | None => ([], r)
      end
  | _ => ([], r)
  end.

Definition _TRADE_TIME_RE (s : pystr) : option pystr :=
  r ← lit_ci TRADE_TIME_MARK (ws s);
  '(hh, r) ← hour_part (ws r);
  '(mm, r) ← two_digits r;
  let '(ss, r) := seconds_part r in
  if at_end r then Some (hh ++ mm ++ ss) else None.

(** [_TREND_RE.match(s)], giving group 1. *)
Definition opt_ci (p r : pystr) : pystr :=
  match lit_ci p r with Some r' => r' | None => r end.

Definition buy_or_sell (r : pystr) : option (pystr * pystr) :=
  match lit_ci (lit "Buy") r with
  | Some r' => Some (take 3 r, r')
  | None =>
      match lit_ci (lit "Sell") r with
      | Some r' => Some (take 4 r, r')
      | None => None
      end
  end.

Definition _TREND_RE (s : pystr) : option pystr :=
  r ← lit_ci TREND_MARK (ws s);
  r ← lit_ci (lit "T") (ws r);
  r ← lit_ci (lit "end") (opt_ci (lit "r") r);
  r ← lit_ci (lit ":") (ws r);
  '(g, r) ← buy_or_sell (ws r);
  if at_end r then Some g else None.

(** [_FORECAST_RE.match(s)] and [_PAYOUT_RE.match(s)], giving group 1: the
    two patterns differ in the glyph and the label only. *)
Definition fraction_part (r : pystr) : pystr * pystr :=
  match r with
  | 0x2E :: r' =>
      match many1 is_ascii_digit r' with
      | Some (fr, r'') => (0x2E :: fr, r'')
      | None => ([], r)
      end
  | _ => ([], r)
  end.

Definition percent_line (mark label s : pystr) : option pystr :=
  r ← lit_ci mark (ws s);
  r ← lit_ci label (ws r);
  r ← lit_ci (lit ":") (ws r);
  '(ip, r) ← many1 is_ascii_digit (ws r);
  let '(fr, r) := fraction_part r in
  r ← lit_ci (lit "%") r;
  if at_end r then Some (ip ++ fr) else None.

Definition _FORECAST_RE : pystr -> option pystr :=
  percent_line FORECAST_MARK (lit "Forecast").
Definition _PAYOUT_RE : pystr -> option pystr :=
  percent_line PAYOUT_MARK (lit "Payout").

(** [_DIRECTION_WORD_RE.search(s)], giving group 1: the leftmost whole word
    call or put.  [\b] holds where exactly one of the two neighbouring
    characters is a word character (the ends of the string count as none). *)
Definition wordp (c : option N) : bool :=
  match c with Some c => is_word c | None => false end.

Definition word_boundary (before after : option N) : bool :=
  xorb (wordp before) (wordp after).

Definition word_here (w : pystr) (before : option N) (s : pystr)
  : option pystr :=
  if word_boundary before (head s) then
    match lit_ci w s with
    | Some r =>
        if word_boundary (last (take (List.length w) s)) (head r)
        then Some (take (List.length w) s) else None
    | None => None
    end
  else None.

Fixpoint search_from (before : option N) (s : pystr) : option pystr :=
  match word_here (lit "call") before s with
  | Some g => Some g
  | None =>
      match word_here (lit "put") before s with
      | Some g => Some g
      | None =>
          match s with
          | c :: r => search_from (Some c) r
          | [] => None
          end
      end
  end.

Definition _DIRECTION_WORD_RE : pystr -> option pystr := search_from None.

(** [_normalize_direction_from_line] *)
Definition _normalize_direction_from_line (s : pystr) : option pystr :=
  let s_low := lower s in
  if contains UP_MARK s_low || contains (lit " call") s_low then
    Some (lit "call")
  else if contains DOWN_MARK s_low || contains (lit " put") s_low then
    Some (lit "put")
  else
    match _DIRECTION_WORD_RE s with
    | Some g =>
        let v := lower g in
        Some (if str_eqb v (lit "call") then lit "call" else lit "put")
    | None => None
    end.

(** ** [signal_reader_telegram]: signals and the block parser *)

Record TelegramSignal := {
  asset : pystr;
  direction : pystr;
  timeframe_min : option Z;
  trade_time : option pystr;
  trend : option pystr;
  forecast_pct : option Q;
  payout_pct : option Q;
  raw_block : pystr
}.

(** [TelegramSignal.key]: an absent or empty trade time is written as the
    empty string. *)
Definition key (sig : TelegramSignal) : pystr :=
  asset sig ++ lit "|" ++ default [] (trade_time sig) ++ lit "|"
  ++ direction sig.

(** The parser object: the pending record [_state], a dictionary from field
    names to strings, and the raw lines of the block. *)
Record TelegramSignalParser := {
  _state : gmap string pystr;
  _block_lines : list pystr
}.

(** [TelegramSignalParser()] *)
Definition new_parser : TelegramSignalParser :=
  {| _state := ∅; _block_lines := [] |}.

(** [int(tf) if tf else None] and [float(f) if f is not None else None] *)
Definition int_or_none (tf : option pystr) : outcome (option Z) :=
  match tf with
  | Some ((_ :: _) as t) =>
      match py_int t with
      | Some n => Returned (Some n)
      | None => Raised ValueError
      end
  | _ => Returned None
  end.

Definition float_or_none (f : option pystr) : outcome (option Q) :=
  match f with
  | Some t =>
      match py_float t with
      | Some q => Returned (Some q)
      | None => Raised ValueError
      end
  | None => Returned None
  end.

(** [self._block_lines[-12:]] *)
Definition last_12 (l : list pystr) : list pystr :=
  drop (List.length l - 12) l.

(** [TelegramSignalParser._maybe_emit]: the value returned or the exception
    raised, and the parser afterwards. *)
Definition _maybe_emit (partial_ok : bool) (p : TelegramSignalParser)
  : outcome (option TelegramSignal) * TelegramSignalParser :=
  let asset := _state p !! "asset"%string in
  let direction := _state p !! "direction"%string in
  let trade_time := _state p !! "trade_time"%string in
  match asset, direction with
  | Some ((_ :: _) as a), Some ((_ :: _) as d) =>
      if negb partial_ok && bool_decide (trade_time = None) then
        (Returned None, p)
      else
        let tf := _state p !! "timeframe_min"%string in
        let trend := _state p !! "trend"%string in
        let f := _state p !! "forecast_pct"%string in
        let po := _state p !! "payout_pct"%string in
        let raw := join (lit (String "010"%char EmptyString))
                        (last_12 (_block_lines p)) in
        match int_or_none tf with
        | Raised e => (Raised e, p)
        | Returned tfv =>
            match float_or_none f with
            | Raised e => (Raised e, p)
            | Returned fv =>
                match float_or_none po with
                | Raised e => (Raised e, p)
                | Returned pv =>
                    (Returned (Some {| asset := a;
                                       direction := d;
                                       timeframe_min := tfv;
                                       trade_time := trade_time;
                                       trend := trend;
                                       forecast_pct := fv;
                                       payout_pct := pv;
                                       raw_block := raw |}),
                     {| _state := delete "direction"%string (_state p);
                        _block_lines := _block_lines p |})
                end
            end
        end
  | _, _ => (Returned None, p)
  end.

(** The field updates of [feed_line], in the order of the source: every
    pattern is tried on the stripped line and a match overwrites its field.
    The forecast and payout fields hold a numeral of the number captured
    (the source stores [str(float(g))], which [float] reads back as the same
    number); a capture that [float] rejects leaves the field as it is. *)
Definition set_if (k : string) (v : option pystr) (st : gmap string pystr)
  : gmap string pystr :=
  match v with
  | Some x => <[k := x]> st
  | None => st
  end.

Definition float_text (g : option pystr) : option pystr :=
  g ≫= λ t, match py_float t with Some _ => Some t | None => None end.

Definition is_quote (c : N) : bool := c =? 0x22.

Definition update_fields (s : pystr) (st : gmap string pystr)
  : gmap string pystr :=
  let st := set_if "asset" (strip <$> _ASSET_LINE_RE s) st in
  let st := set_if "timeframe_min" (_TIMEFRAME_RE s) st in
  let st := set_if "trade_time"
              ((λ g, strip_with is_quote (strip g)) <$> _TRADE_TIME_RE s) st in
  let st := set_if "direction" (_normalize_direction_from_line s) st in
  let st := set_if "trend" (title <$> _TREND_RE s) st in
  let st := set_if "forecast_pct" (float_text (_FORECAST_RE s)) st in
  let st := set_if "payout_pct" (float_text (_PAYOUT_RE s)) st in
  st.

(** The two boundary tests of [feed_line]. *)
Definition is_win (s : pystr) : bool := startswith (upper s) (lit "WIN").
Definition is_asset_start (s : pystr) : bool := startswith s ASSET_MARK.

(** The parser of a non-blank stripped line [s] at the point where the
    lenient emission is attempted: the line appended to the block, the block
    reset by an asset marker, the fields updated. *)
Definition pending_after (p : TelegramSignalParser) (s : pystr)
  : TelegramSignalParser :=
  if is_asset_start s then
    {| _state := update_fields s ∅; _block_lines := [s] |}
  else
    {| _state := update_fields s (_state p);
       _block_lines := _block_lines p ++ [s] |}.

(** [TelegramSignalParser.feed_line] *)
Definition feed_line (p : TelegramSignalParser) (line : pystr)
  : outcome (option TelegramSignal) * TelegramSignalParser :=
  let s := strip line in
  match s with
  | [] => _maybe_emit false p
  | _ :: _ =>
      let p1 := {| _state := _state p;
                   _block_lines := _block_lines p ++ [s] |} in
      if is_win s || is_asset_start s then
        match _maybe_emit false p1 with
        | (Raised e, p2) => (Raised e, p2)
        | (Returned prev, p2) =>
            let p3 := if is_asset_start s
                      then {| _state := ∅; _block_lines := [s] |}
                      else p2 in
            match prev with
            | Some sig => (Returned (Some sig), p3)
            | None =>
                _maybe_emit true
                  {| _state := update_fields s (_state p3);
                     _block_lines := _block_lines p3 |}
            end
        end
      else
        _maybe_emit true
          {| _state := update_fields s (_state p1);
             _block_lines := _block_lines p1 |}
  end.

(** The loop that both stream sources and the live handler run: the lines
    are fed in order and the signals emitted are collected, before any
    suppression of repeated keys.  An exception ends the loop. *)
Fixpoint feed_lines (p : TelegramSignalParser) (lines : list pystr)
  : outcome (list TelegramSignal) * TelegramSignalParser :=
  match lines with
  | [] => (Returned [], p)
  | l :: rest =>
      match feed_line p l with
      | (Raised e, p') => (Raised e, p')
      | (Returned o, p') =>
          match feed_lines p' rest with
          | (Raised e, p'') => (Raised e, p'')
          | (Returned sigs, p'') =>
              (Returned (match o with Some sig => sig :: sigs | None => sigs end),
               p'')
          end
      end
  end.

(** ** [signal_reader_telegram]: the schedule resolver *)

Local Open Scope Z_scope.

(** An aware [datetime] in a zone of fixed offset is held as its wall-clock
    reading, in microseconds counted from 1970-01-01 00:00:00 on that wall
    clock.  [datetime] covers the years 1 to 9999. *)
Definition US : Z := 1000000.
Definition DAY_US : Z := 86400 * US.
Definition MIN_US : Z := -62135596800 * US.
Definition MAX_US : Z := 253402300799 * US + 999999.

Definition in_datetime_range (us : Z) : bool :=
  (MIN_US <=? us) && (us <=? MAX_US).

(** The zone: [ZoneInfo("Asia/Kolkata")], five and a half hours ahead of UTC
    (its offset for every instant since October 1945), or [timezone.utc]
    where [zoneinfo] could not be imported. *)
Definition tz_offset_s (have_zoneinfo : bool) : Z :=
  if have_zoneinfo then 19800 else 0.

(** Rounding to the nearest integer, ties to even: how [fromtimestamp] turns
    a float into microseconds. *)
Definition round_half_even (x : Q) : Z :=
  let f := Qfloor x in
  match Qcompare (x - inject_Z f) (1 # 2) with
  | Lt => f
  | Gt => f + 1
  | Eq => if Z.even f then f else f + 1
  end.

(** [datetime.fromtimestamp(ref_ts, tz)] *)
Definition fromtimestamp (off : Z) (ref_ts : Q) : outcome Z :=
  let utc := round_half_even (ref_ts * inject_Z US) in
  if in_datetime_range utc then
    let loc := utc + off * US in
    if in_datetime_range loc then Returned loc else Raised OverflowError
  else Raised OverflowError.

(** [now.replace(hour=h, minute=m, second=s, microsecond=0)] *)
Definition replace_hms (now h m s : Z) : outcome Z :=
  if (0 <=? h) && (h <? 24) && (0 <=? m) && (m <? 60)
     && (0 <=? s) && (s <? 60)
  then Returned (now / DAY_US * DAY_US + (h * 3600 + m * 60 + s) * US)
  else Raised ValueError.

(** [dt + timedelta(days=1)] *)
Definition add_one_day (dt : Z) : outcome Z :=
  if in_datetime_range (dt + DAY_US) then Returned (dt + DAY_US)
  else Raised OverflowError.

(** [int(dt.timestamp())] *)
Definition timestamp (off : Z) (dt : Z) : Z := dt / US - off.

(** [int(parts[i])] *)
Definition int_part (parts : list pystr) (i : nat) : outcome Z :=
  match parts !! i with
  | None => Raised IndexError
  | Some t =>
      match py_int t with
      | Some n => Returned n
      | None => Raised ValueError
      end
  end.

(** The body of the [try] of [ist_epoch_for_trade_time].  [clock] is the
    reading of the system clock, used where no reference instant is given. *)
Definition resolve_trade_time (have_zoneinfo : bool) (clock : Q)
    (hhmm : pystr) (ref_ts : option Q) : outcome Z :=
  let parts := split_on 0x3A%N hhmm in
  match int_part parts 0 with
  | Raised e => Raised e
  | Returned h =>
  match int_part parts 1 with
  | Raised e => Raised e
  | Returned m =>
  match (if (2 <? List.length parts)%nat then int_part parts 2
         else Returned 0) with
  | Raised e => Raised e
  | Returned s =>
  let off := tz_offset_s have_zoneinfo in
  match fromtimestamp off (default clock ref_ts) with
  | Raised e => Raised e
  | Returned now =>
  match replace_hms now h m s with
  | Raised e => Raised e
  | Returned trade_dt =>
      if trade_dt <=? now then
        match add_one_day trade_dt with
        | Raised e => Raised e
        | Returned next => Returned (timestamp off next)
        end
      else Returned (timestamp off trade_dt)
  end end end end end.

(** [ist_epoch_for_trade_time]: any exception becomes the result 0. *)
Definition ist_epoch_for_trade_time (have_zoneinfo : bool) (clock : Q)
    (hhmm : pystr) (ref_ts : option Q) : Z :=
  match resolve_trade_time have_zoneinfo clock hhmm ref_ts with
  | Returned epoch => epoch
  | Raised _ => 0
  end.

(** [parse_file_once]: the lines of the file are fed in order to one parser;
    a signal whose key was seen before is dropped, the others are appended to
    the result in the order they are emitted.  [lines] are the lines the open
    file yields. *)
Fixpoint parse_loop (parser : TelegramSignalParser) (seen : gset pystr)
    (out : list TelegramSignal) (lines : list pystr)
  : outcome (list TelegramSignal) :=
  match lines with
  | [] => Returned out
  | line :: rest =>
      match feed_line parser line with
      | (Raised e, _) => Raised e
      | (Returned None, parser') => parse_loop parser' seen out rest
      | (Returned (Some sig), parser') =>
          let k := key sig in
          if bool_decide (k ∈ seen) then parse_loop parser' seen out rest
          else parse_loop parser' (seen ∪ {[ k ]}) (out ++ [sig]) rest
      end
  end.

Definition parse_file_once (lines : list pystr)
  : outcome (list TelegramSignal) :=
  parse_loop new_parser ∅ [] lines.

End Reader.

(** ** [telegram_signal_live]: the live follower *)

Module Live.
Import Text Reader.

(** *** The import of the parser module

    A module is the list of the names its top-level statements bind, in the
    order they are bound.  These are the names [signal_reader_telegram] binds
    when it is imported (the block under [if __name__ == "__main__"] does not
    run then, and binds none of the names asked for below either). *)
Definition reader_namespace : list string :=
  ["asyncio"; "os"; "re"; "dataclass"; "datetime"; "timezone"; "timedelta";
   "AsyncIterator"; "Dict"; "List"; "Optional"; "Set"; "ZoneInfo";
   "TelegramSignal"; "_ASSET_RE"; "_ASSET_LINE_RE"; "_TIMEFRAME_RE";
   "_TRADE_TIME_RE"; "_DIRECTION_WORD_RE"; "_TREND_RE"; "_FORECAST_RE";
   "_PAYOUT_RE"; "_normalize_direction_from_line"; "TelegramSignalParser";
   "tail_file"; "parse_file_once"; "ist_epoch_for_trade_time"]%string.

(** The names the live follower asks of it. *)
Definition wanted_names : list string :=
  ["TelegramSignalParser"; "schedule_signal";
   "ScheduledTelegramSignal"]%string.

(** [from <module> import <names>]: [found] tells whether the module can be
    located at all (on the path for the absolute form, in the parent package
    for the relative form); a module that is not found and a name that the
    module does not bind both raise [ImportError]. *)
Definition import_from (found : bool) (namespace names : list string)
  : outcome (list string) :=
  if found && forallb (λ n, bool_decide (n ∈ namespace)) names
  then Returned names
  else Raised ImportError.

(** The top-level statements of [telegram_signal_live] up to the definition
    of [Strategy19Follower]: the names bound once the module is loaded. *)
Definition load_live_module (found_absolute found_relative : bool)
  : outcome (list string) :=
  let std := ["os"; "csv"; "asyncio"; "time"; "Optional"; "dataclass"]%string in
  let rest := ["TelegramClient"; "events"; "S19Config"; "_HEADER";
               "_ensure_log"; "_log_signal"; "Strategy19Follower";
               "load_cfg_from_env"; "main"]%string in
  match import_from found_absolute reader_namespace wanted_names with
  | Returned ns => Returned (std ++ ns ++ rest)
  | Raised _ =>
      match import_from found_relative reader_namespace wanted_names with
      | Returned ns => Returned (std ++ ns ++ rest)
      | Raised _ => Raised ImportError
      end
  end.

(** *** Configuration and scheduled signals

    Clock readings, epochs and percentages are Python floats; they are
    modelled by rationals. *)
Record S19Config := {
  min_payout : Q;
  min_forecast : Q;
  lead_s : Z;
  trade : bool;
  default_expiry_min : Z;
  cooldown_same_asset_s : Q;
  allow_past_grace_s : Q;
  tz_offset_min : Z
}.

(** The [reason] strings: the empty default, [f"forecast<{min_forecast}"],
    ["asset_cooldown"], ["missed_entry"] and ["ok"]. *)
Inductive reason_text :=
| reason_empty
| reason_forecast (min_forecast : Q)
| reason_asset_cooldown
| reason_missed_entry
| reason_ok.

(** Modelled from the spec: the class [ScheduledTelegramSignal], which the
    live follower imports and no source file defines.  It extends the signal
    with the optional absolute trade epoch, the entry lead in seconds, the
    [ignored] flag (false by default) and the [reason] (empty by default). *)
Record ScheduledTelegramSignal := {
  signal : TelegramSignal;
  trade_epoch : option Q;
  entry_lead_s : Q;
  ignored : bool;
  reason : reason_text
}.

(** Modelled from the spec: [seconds_until_entry] is
    (trade_epoch - entry_lead_s) - now, the time left until the order should
    be placed; there is none for a signal without a trade epoch. *)
Definition seconds_until_entry (now : Q) (sig : ScheduledTelegramSignal)
  : option Q :=
  (λ te, te - entry_lead_s sig - now)%Q <$> trade_epoch sig.

Definition set_verdict (sig : ScheduledTelegramSignal) (i : bool)
    (r : reason_text) : ScheduledTelegramSignal :=
  {| signal := signal sig; trade_epoch := trade_epoch sig;
     entry_lead_s := entry_lead_s sig; ignored := i; reason := r |}.

Definition Qltb (x y : Q) : bool :=
  match (x ?= y)%Q with Lt => true | _ => false end.

(** *** The admission filter *)

(** The three tests of [Strategy19Follower._filter]. *)
Definition forecast_below (cfg : S19Config) (sig : ScheduledTelegramSignal)
  : bool :=
  match forecast_pct (signal sig) with
  | Some f => Qltb f (min_forecast cfg)
  | None => false
  end.

Definition cooldown_active (cooldowns : gmap pystr Q) (now : Q)
    (sig : ScheduledTelegramSignal) : bool :=
  Qltb now (default 0%Q (cooldowns !! asset (signal sig))).

Definition entry_missed (cfg : S19Config) (now : Q)
    (sig : ScheduledTelegramSignal) : bool :=
  match trade_epoch sig with
  | Some te =>
      Qltb (te - entry_lead_s sig) now
      && Qltb (allow_past_grace_s cfg) (now - (te - entry_lead_s sig))
  | None => false
  end.

(** [Strategy19Follower._filter]; [now] is the reading of [time.time()]. *)
Definition _filter (cfg : S19Config) (cooldowns : gmap pystr Q) (now : Q)
    (sig : ScheduledTelegramSignal) : ScheduledTelegramSignal :=
  if forecast_below cfg sig then
    set_verdict sig true (reason_forecast (min_forecast cfg))
  else if cooldown_active cooldowns now sig then
    set_verdict sig true reason_asset_cooldown
  else if entry_missed cfg now sig then
    set_verdict sig true reason_missed_entry
  else
    set_verdict sig (ignored sig) reason_ok.

(** *** Handling a signal *)

(** What the handler writes: a row of the CSV log, the summary line, the call
    of the execution callback, the report of its failure. *)
Inductive event :=
| log_row (sig : ScheduledTelegramSignal) (eta : option Q)
| print_summary (sig : ScheduledTelegramSignal) (eta : option Q)
| execute (sig : ScheduledTelegramSignal)
| print_exec_err (e : exn).

Record Strategy19Follower := {
  seen_keys : gset pystr;
  cooldowns : gmap pystr Q;
  output : list event
}.

(** [Strategy19Follower._handle_signal].  [execute_cb] is the injected
    callback, if any, with the outcome of awaiting it; [t_filter], [t_log],
    [t_print] and [t_set] are the successive readings of the clock. *)
Definition _handle_signal (cfg : S19Config)
    (execute_cb : option (ScheduledTelegramSignal -> outcome unit))
    (t_filter t_log t_print t_set : Q)
    (self : Strategy19Follower) (sig : ScheduledTelegramSignal)
  : Strategy19Follower :=
  let k := key (signal sig) in
  if bool_decide (k ∈ seen_keys self) then self
  else
    let seen := seen_keys self ∪ {[ k ]} in
    let sig := _filter cfg (cooldowns self) t_filter sig in
    let out := output self
               ++ [log_row sig (seconds_until_entry t_log sig);
                   print_summary sig (seconds_until_entry t_print sig)] in
    let out :=
      match execute_cb with
      | Some cb =>
          if trade cfg && negb (ignored sig) then
            match cb sig with
            | Returned _ => out ++ [execute sig]
            | Raised e => out ++ [execute sig; print_exec_err e]
            end
          else out
      | None => out
      end in
    {| seen_keys := seen;
       cooldowns := <[asset (signal sig) := (t_set + cooldown_same_asset_s cfg)%Q]>
                      (cooldowns self);
       output := out |}.

(** *** The CSV log *)

Definition _HEADER : list string :=
  ["ts_local"; "asset"; "direction"; "timeframe_min"; "trade_time";
   "forecast_pct"; "payout_pct"; "trade_epoch"; "seconds_until_entry";
   "ignored"; "reason"; "raw"]%string.

(** A cell handed to [csv.writer]: a string, an integer, a float, a reason
    string, or the value of [seconds_until_entry()]. *)
Inductive cell :=
| cell_text (s : pystr)
| cell_int (n : Z)
| cell_float (q : Q)
| cell_reason (r : reason_text)
| cell_eta (eta : option Q).

(** [x or ""] for an optional integer, string and float: an absent value and
    a falsy one (0, the empty string, 0.0) both give the empty string. *)
Definition int_or_blank (o : option Z) : cell :=
  match o with
  | Some n => if (n =? 0)%Z then cell_text [] else cell_int n
  | None => cell_text []
  end.

Definition text_or_blank (o : option pystr) : cell :=
  cell_text (default [] o).

Definition float_or_blank (o : option Q) : cell :=
  match o with
  | Some q => if Qeq_bool q 0 then cell_text [] else cell_float q
  | None => cell_text []
  end.

(** [s.replace(old, new)] for a one-character [old] *)
Definition replace_char (old : N) (new s : pystr) : pystr :=
  flat_map (λ c, if (c =? old)%N then new else [c]) s.

(** The row [_log_signal] writes; [ts_local] is the formatted local time and
    [now] the clock reading [seconds_until_entry] uses. *)
Definition log_cells (ts_local : pystr) (now : Q)
    (sig : ScheduledTelegramSignal) : list cell :=
  [cell_text ts_local;
   cell_text (asset (signal sig));
   cell_text (direction (signal sig));
   int_or_blank (timeframe_min (signal sig));
   text_or_blank (trade_time (signal sig));
   float_or_blank (forecast_pct (signal sig));
   float_or_blank (payout_pct (signal sig));
   float_or_blank (trade_epoch sig);
   cell_eta (seconds_until_entry now sig);
   cell_int (if ignored sig then 1 else 0);
   cell_reason (reason sig);
   cell_text (take 200 (replace_char 0x0A (lit " | ")
                          (raw_block (signal sig))))].

End Live.

(** * Properties *)

Import Text Reader Live.

(** ** Vocabulary of the statements *)

(** What a stripped line sets for the field [k] of the pending record, if
    anything: the reading of [update_fields] one field at a time. *)
Definition extracted (s : pystr) (k : string) : option pystr :=
  if decide (k = "asset"%string) then strip <$> _ASSET_LINE_RE s
  else if decide (k = "timeframe_min"%string) then _TIMEFRAME_RE s
  else if decide (k = "trade_time"%string) then
    (λ g, strip_with is_quote (strip g)) <$> _TRADE_TIME_RE s
  else if decide (k = "direction"%string) then
    _normalize_direction_from_line s
  else if decide (k = "trend"%string) then title <$> _TREND_RE s
  else if decide (k = "forecast_pct"%string) then
    float_text (_FORECAST_RE s)
  else if decide (k = "payout_pct"%string) then float_text (_PAYOUT_RE s)
  else None.

(** The values of a pending record are usable: the asset and the direction
    are not empty, the timeframe reads as an integer, the forecast and the
    payout read as numbers. *)
Record fields_ok (st : gmap string pystr) : Prop := {
  ok_asset : ∀ v, st !! "asset"%string = Some v → v ≠ [];
  ok_direction : ∀ v, st !! "direction"%string = Some v → v ≠ [];
  ok_timeframe :
    ∀ v, st !! "timeframe_min"%string = Some v → is_Some (py_int v);
  ok_forecast :
    ∀ v, st !! "forecast_pct"%string = Some v → is_Some (py_float v);
  ok_payout :
    ∀ v, st !! "payout_pct"%string = Some v → is_Some (py_float v)
}.

(** The invariant of the parser between two calls of [feed_line]: usable
    values, and never an asset together with a direction. *)
Definition pending_ok (p : TelegramSignalParser) : Prop :=
  fields_ok (_state p)
  ∧ (_state p !! "asset"%string = None
     ∨ _state p !! "direction"%string = None).

(** The parsers a run can be in: the fresh one, and the one left by a call
    of [feed_line], whatever that call returned. *)
Inductive reachable : TelegramSignalParser → Prop :=
| reachable_new : reachable new_parser
| reachable_feed p line :
    reachable p → reachable (snd (feed_line p line)).

(** The parser on which a boundary line makes its strict attempt: the line
    is already appended to the block. *)
Definition with_line (p : TelegramSignalParser) (s : pystr)
  : TelegramSignalParser :=
  {| _state := _state p; _block_lines := _block_lines p ++ [s] |}.

(** Kinds of lines.  An asset line sets the asset and no direction; a
    direction line sets the direction, sets no asset and does not start with
    the asset marker; a neutral line sets neither and does not start with the
    asset marker.  [only line k] says that [line] sets no field but [k]. *)
Definition asset_line (line : pystr) : Prop :=
  is_Some (extracted (strip line) "asset")
  ∧ extracted (strip line) "direction" = None.

Definition direction_line (line : pystr) : Prop :=
  is_Some (extracted (strip line) "direction")
  ∧ extracted (strip line) "asset" = None
  ∧ is_asset_start (strip line) = false.

Definition neutral (line : pystr) : Prop :=
  extracted (strip line) "asset" = None
  ∧ extracted (strip line) "direction" = None
  ∧ is_asset_start (strip line) = false.

Definition only (line : pystr) (k : string) : Prop :=
  ∀ k', k' ≠ k → extracted (strip line) k' = None.


(** A trade-time string reads as the hour [h], the minute [m] and the second
    [s]: its first two colon-separated fields are the integers [h] and [m],
    and its third is [s], or there is none and [s] is 0. *)
Definition reads_as (hhmm : pystr) (h m s : Z) : Prop :=
  let parts := split_on 0x3A%N hhmm in
  parts !! 0%nat ≫= py_int = Some h
  ∧ parts !! 1%nat ≫= py_int = Some m
  ∧ match parts !! 2%nat with
    | Some t => py_int t = Some s
    | None => s = 0%Z
    end.

Definition clock_range (h m s : Z) : Prop :=
  (0 <= h < 24 ∧ 0 <= m < 60 ∧ 0 <= s < 60)%Z.

(** A trade-time string the resolver cannot use: fewer than two fields, a
    field among the first three that is not an integer, or integers outside
    the range of a clock. *)
Definition unusable (hhmm : pystr) : Prop :=
  let parts := split_on 0x3A%N hhmm in
  (List.length parts < 2)%nat
  ∨ (∃ i t, (i < 3)%nat ∧ parts !! i = Some t ∧ py_int t = None)
  ∨ (∃ h m s, reads_as hhmm h m s ∧ ¬ clock_range h m s).

(** A pattern letter with no case fold of its own beyond its two cases:
    its lower case is itself, and it is none of s, U+0130 and U+017F. *)
Definition plain_letter (p : N) : bool :=
  str_eqb (lower_cp p) [p]
  && negb (p =? 0x73)%N && negb (p =? 0x130)%N && negb (p =? 0x17F)%N.

(** The number a run of decimal digits denotes, most significant first. *)
Fixpoint digits_val (acc : N) (g : pystr) : N :=
  match g with
  | [] => acc
  | c :: r => digits_val (acc * 10 + default 0%N (digit_value c)) r
  end.

(** What the value of each field of a pending record looks like: the asset
    is a non-empty run of ticker characters; the direction is call or put;
    the timeframe reads as a natural number; the trade time is made of digits
    and colons and reads as an hour up to 29 and a minute and a second up to
    99; the trend is Buy or Sell; the forecast and the payout read as numbers
    that are not negative. *)
Definition value_wf (k : string) (v : pystr) : Prop :=
  if decide (k = "asset"%string) then
    v ≠ [] ∧ Forall (λ c, is_asset_char c = true) v
  else if decide (k = "timeframe_min"%string) then
    v ≠ [] ∧ ∃ n, py_int v = Some n ∧ (0 <= n)%Z
  else if decide (k = "trade_time"%string) then
    Forall (λ c, isdigit c = true ∨ c = 0x3A%N) v
    ∧ ∃ h m s, reads_as v h m s
               ∧ (0 <= h <= 29 ∧ 0 <= m <= 99 ∧ 0 <= s <= 99)%Z
  else if decide (k = "direction"%string) then
    v = lit "call" ∨ v = lit "put"
  else if decide (k = "trend"%string) then v = lit "Buy" ∨ v = lit "Sell"
  else if decide (k = "forecast_pct"%string) then
    ∃ q, py_float v = Some q ∧ (0 <= q)%Q
  else if decide (k = "payout_pct"%string) then
    ∃ q, py_float v = Some q ∧ (0 <= q)%Q
  else False.

Definition state_wf (st : gmap string pystr) : Prop :=
  ∀ k v, st !! k = Some v → value_wf k v.

(** The same for an emitted signal. *)
Definition signal_wf (sig : TelegramSignal) : Prop :=
  value_wf "asset" (asset sig)
  ∧ value_wf "direction" (direction sig)
  ∧ (∀ n, timeframe_min sig = Some n → (0 <= n)%Z)
  ∧ (∀ v, trade_time sig = Some v → value_wf "trade_time" v)
  ∧ (∀ v, trend sig = Some v → value_wf "trend" v)
  ∧ (∀ q, forecast_pct sig = Some q → (0 <= q)%Q)
  ∧ (∀ q, payout_pct sig = Some q → (0 <= q)%Q).


(** The signals of a list whose key is not in [seen] and has not occurred
    earlier in the list. *)
Fixpoint fresh_signals (seen : gset pystr) (sigs : list TelegramSignal)
  : list TelegramSignal :=
  match sigs with
  | [] => []
  | sig :: rest =>
      if bool_decide (key sig ∈ seen) then fresh_signals seen rest
      else sig :: fresh_signals (seen ∪ {[ key sig ]}) rest
  end.



(** ** Sample data: the block quoted at the head of the parser module *)

Definition line_asset : pystr := ASSET_MARK ++ lit " USDBDT-OTC".
Definition line_put : pystr := DOWN_MARK ++ lit " put".
Definition line_call : pystr := UP_MARK ++ lit " call".

Definition sample_signal (forecast : Q) : TelegramSignal :=
  {| asset := lit "USDBDT-OTC"; direction := lit "put";
     timeframe_min := Some 1%Z; trade_time := Some (lit "23:10:00");
     trend := Some (lit "Sell"); forecast_pct := Some forecast;
     payout_pct := Some 82%Q; raw_block := [] |}.

Definition sample_scheduled (forecast : Q) (epoch : option Q)
  : ScheduledTelegramSignal :=
  {| signal := sample_signal forecast; trade_epoch := epoch;
     entry_lead_s := 5%Q; ignored := false; reason := reason_empty |}.

Definition sample_cfg : S19Config :=
  {| min_payout := 0%Q; min_forecast := 70%Q; lead_s := 5%Z; trade := true;
     default_expiry_min := 1%Z; cooldown_same_asset_s := 90%Q;
     allow_past_grace_s := 8%Q; tz_offset_min := 330%Z |}.

Definition sample_follower : Strategy19Follower :=
  {| seen_keys := ∅; cooldowns := ∅; output := [] |}.

(** A callback that fails. *)
Definition failing_cb (_ : ScheduledTelegramSignal) : outcome unit :=
  Raised ValueError.

(** ** The live follower *)

Section live.

Lemma Qltb_lt (x y : Q) : Qltb x y = true ↔ (x < y)%Q.
Proof.
  unfold Qltb. rewrite Qlt_alt.
  destruct (x ?= y)%Q; split; congruence.
Qed.

Lemma Qltb_ge (x y : Q) : Qltb x y = false ↔ ¬ (x < y)%Q.
Proof.
  rewrite <- Qltb_lt. destruct (Qltb x y); split; congruence.
Qed.

(** C4.  Loading [telegram_signal_live] always ends in [ImportError],
    whether or not the parser module can be located by the absolute import
    and by the relative one: the module asks the parser module for
    [schedule_signal] and [ScheduledTelegramSignal], and the parser module
    binds neither, so both attempts fail and the handler of the second
    re-raises.  Nothing after the import, [Strategy19Follower] included, is
    ever defined. *)
Theorem live_module_never_loads (found_absolute found_relative : bool) :
  load_live_module found_absolute found_relative = Raised ImportError
  ∧ ¬ ("schedule_signal"%string ∈ reader_namespace)
  ∧ ¬ ("ScheduledTelegramSignal"%string ∈ reader_namespace)
  ∧ ∀ names,
      load_live_module found_absolute found_relative ≠ Returned names.
Proof.
  assert (Hload : load_live_module found_absolute found_relative
                  = Raised ImportError)
    by (destruct found_absolute, found_relative; reflexivity).
  split; [exact Hload|].
  split; [|split].
  - apply (bool_decide_eq_false_1 _). reflexivity.
  - apply (bool_decide_eq_false_1 _). reflexivity.
  - intros names. rewrite Hload. discriminate.
Qed.

(** The verdict [_filter] leaves on a signal. *)
Lemma filter_signal cfg cds now sig :
  signal (_filter cfg cds now sig) = signal sig
  ∧ trade_epoch (_filter cfg cds now sig) = trade_epoch sig
  ∧ entry_lead_s (_filter cfg cds now sig) = entry_lead_s sig.
Proof.
  unfold _filter.
  destruct (forecast_below cfg sig); [done|].
  destruct (cooldown_active cds now sig); [done|].
  destruct (entry_missed cfg now sig); done.
Qed.







End live.

(** ** Characters and numerals *)

Section text_facts.
Local Open Scope N_scope.

(** A property of code points checked one by one below a bound. *)
Lemma checked_below (P : N → bool) (n : nat) :
  forallb P (List.map N.of_nat (seq 0 n)) = true →
  ∀ c, c < N.of_nat n → P c = true.
Proof.
  intros Hall c Hc. rewrite forallb_forall in Hall. apply Hall.
  apply in_map_iff. exists (N.to_nat c). split; [apply N2Nat.id|].
  apply in_seq. lia.
Qed.

Lemma isspace_bound c : isspace c = true → c < 0x3001.
Proof.
  unfold isspace, in_ranges. simpl.
  rewrite !orb_true_iff, !andb_true_iff, !N.leb_le. lia.
Qed.

(** No white-space character is a decimal digit or a ticker character. *)
Lemma space_not_token c :
  isspace c = true → isdigit c = false ∧ is_asset_char c = false.
Proof.
  intros Hsp.
  pose (P := λ c : N, negb (isspace c)
                      || negb (isdigit c) && negb (is_asset_char c)).
  assert (Hchk : P c = true).
  { apply (checked_below P (N.to_nat 0x3001)); [by vm_compute|].
    rewrite N2Nat.id. by apply isspace_bound. }
  unfold P in Hchk. rewrite Hsp in Hchk. simpl in Hchk.
  apply andb_true_iff in Hchk as [H1 H2].
  by rewrite negb_true_iff in H1, H2.
Qed.

Lemma digit_not_space c : isdigit c = true → isspace c = false.
Proof.
  intros Hd. destruct (isspace c) eqn:Hs; [|done].
  apply space_not_token in Hs as [Hs _]. congruence.
Qed.

Lemma asset_char_not_space c : is_asset_char c = true → isspace c = false.
Proof.
  intros Hd. destruct (isspace c) eqn:Hs; [|done].
  apply space_not_token in Hs as [_ Hs]. congruence.
Qed.

(** Stripping a string that holds none of the stripped characters. *)
Lemma lstrip_with_id f s :
  Forall (λ c, f c = false) s → lstrip_with f s = s.
Proof. destruct 1 as [|c r Hc _]; simpl; [done|]. by rewrite Hc. Qed.

Lemma strip_with_id f s :
  Forall (λ c, f c = false) s → strip_with f s = s.
Proof.
  intros Hs. unfold strip_with.
  rewrite (lstrip_with_id f s Hs).
  rewrite lstrip_with_id by (by apply Forall_rev).
  apply rev_involutive.
Qed.

Lemma span_spec f r g rest :
  span f r = (g, rest) → Forall (λ c, f c = true) g ∧ r = g ++ rest.
Proof.
  revert g rest. induction r as [|c r IH]; simpl; intros g rest Hsp.
  - by simplify_eq.
  - destruct (f c) eqn:Hc; [|by simplify_eq].
    destruct (span f r) as [g' rest'] eqn:Hr. simplify_eq.
    destruct (IH _ _ eq_refl) as [Hg ->]. split; [by constructor|done].
Qed.

Lemma many1_spec f r g rest :
  many1 f r = Some (g, rest) →
  g ≠ [] ∧ Forall (λ c, f c = true) g ∧ r = g ++ rest.
Proof.
  unfold many1. destruct (span f r) as [g' rest'] eqn:Hsp.
  destruct g' as [|c g']; [done|]. intros [= <- <-].
  split; [done|]. by apply span_spec.
Qed.

(** [int] reads every non-empty run of decimal digits. *)
Lemma int_digits_total g :
  Forall (λ c, isdigit c = true) g →
  ∀ acc, is_Some (int_digits acc true g)
         ∧ (g ≠ [] → is_Some (int_digits acc false g)).
Proof.
  induction 1 as [|c g Hc _ IH]; intros acc; simpl; [split; [eauto|done]|].
  assert ((c =? 0x5F) = false) as ->.
  { apply N.eqb_neq. intros ->. by vm_compute in Hc. }
  unfold isdigit in Hc. destruct (digit_value c) as [d|]; [|done].
  split; [|intros _]; apply IH.
Qed.

Lemma py_int_digits g :
  g ≠ [] → Forall (λ c, isdigit c = true) g → is_Some (py_int g).
Proof.
  intros Hne Hg. unfold py_int, strip.
  rewrite strip_with_id
    by (eapply Forall_impl; [exact Hg|]; apply digit_not_space).
  destruct g as [|c r]; [done|].
  assert (Hc : isdigit c = true) by (by inversion Hg).
  assert ((c =? 0x2D) = false) as ->.
  { apply N.eqb_neq. intros ->. by vm_compute in Hc. }
  assert ((c =? 0x2B) = false) as ->.
  { apply N.eqb_neq. intros ->. by vm_compute in Hc. }
  destruct (int_digits_total _ Hg 0) as [_ Hsome].
  destruct (Hsome Hne) as [n ->]. by eexists.
Qed.

End text_facts.

(** ** The pending record *)

Section pending.

Ltac key_cases :=
  repeat (case_decide; simplify_eq; try done).

Lemma lookup_set_if k k' v (st : gmap string pystr) :
  set_if k v st !! k'
  = if decide (k = k') then from_option Some (st !! k') v else st !! k'.
Proof.
  unfold set_if. destruct v as [x|]; simpl.
  - rewrite lookup_insert. by case_decide.
  - by case_decide.
Qed.

(** [update_fields] read one field at a time. *)
Lemma update_fields_lookup s st k :
  update_fields s st !! k = from_option Some (st !! k) (extracted s k).
Proof.
  unfold update_fields, extracted. rewrite !lookup_set_if. key_cases.
Qed.

Lemma extracted_nil k : extracted [] k = None.
Proof. unfold extracted. key_cases. Qed.

Lemma extracted_asset s v :
  extracted s "asset" = Some v → v ≠ [].
Proof.
  change (extracted s "asset") with (strip <$> _ASSET_LINE_RE s).
  unfold _ASSET_LINE_RE. intros H.
  apply fmap_Some in H as (g & H & ->).
  apply bind_Some in H as (r & _ & H).
  apply bind_Some in H as ([g' r'] & Hg & H).
  destruct (at_end r'); [|done]. simplify_eq.
  apply many1_spec in Hg as (Hne & Hall & _).
  unfold strip. rewrite strip_with_id; [done|].
  eapply Forall_impl; [exact Hall|]. apply asset_char_not_space.
Qed.

Lemma extracted_direction s v :
  extracted s "direction" = Some v → v = lit "call" ∨ v = lit "put".
Proof.
  change (extracted s "direction") with (_normalize_direction_from_line s).
  unfold _normalize_direction_from_line.
  repeat case_match; intros ?; simplify_eq; auto.
Qed.

Lemma extracted_timeframe s v :
  extracted s "timeframe_min" = Some v → is_Some (py_int v).
Proof.
  change (extracted s "timeframe_min") with (_TIMEFRAME_RE s).
  unfold _TIMEFRAME_RE. intros H.
  apply bind_Some in H as (r & _ & H).
  apply bind_Some in H as (r' & _ & H).
  apply bind_Some in H as ([g r''] & Hg & H).
  destruct (at_end r''); [|done]. simplify_eq.
  apply many1_spec in Hg as (Hne & Hall & _). by apply py_int_digits.
Qed.

Lemma float_text_float g v : float_text g = Some v → is_Some (py_float v).
Proof.
  unfold float_text. destruct g as [t|]; simpl; [|done].
  destruct (py_float t) eqn:Ht; [|done]. intros [= <-]. eauto.
Qed.

Lemma extracted_forecast s v :
  extracted s "forecast_pct" = Some v → is_Some (py_float v).
Proof. apply float_text_float. Qed.

Lemma extracted_payout s v :
  extracted s "payout_pct" = Some v → is_Some (py_float v).
Proof. apply float_text_float. Qed.

Lemma fields_ok_empty : fields_ok ∅.
Proof. by split; intros v; rewrite lookup_empty. Qed.

Lemma fields_ok_update s st : fields_ok st → fields_ok (update_fields s st).
Proof.
  intros [Ha Hd Ht Hf Hp].
  split; intros v; rewrite update_fields_lookup;
    match goal with
    | |- context [extracted s ?k] => destruct (extracted s k) eqn:Hx
    end; simpl; intros ?; simplify_eq; eauto.
  - by eapply extracted_asset.
  - apply extracted_direction in Hx as [-> | ->]; done.
  - by eapply extracted_timeframe.
  - by eapply extracted_forecast.
  - by eapply extracted_payout.
Qed.

Lemma fields_ok_delete st : fields_ok st → fields_ok (delete "direction" st).
Proof.
  intros [Ha Hd Ht Hf Hp].
  split; intros v; rewrite lookup_delete; case_decide; try done; eauto.
Qed.

(** *** [_maybe_emit] *)

(** Without an asset or without a direction nothing is emitted and nothing
    changes, whichever emission is attempted. *)
Lemma maybe_emit_none partial_ok p :
  _state p !! "asset" = None ∨ _state p !! "direction" = None →
  _maybe_emit partial_ok p = (Returned None, p).
Proof.
  unfold _maybe_emit. intros [-> | ->]; [done|].
  by repeat case_match.
Qed.

(** The lenient emission of a usable record with asset and direction. *)
Lemma maybe_emit_lenient p a d :
  fields_ok (_state p) →
  _state p !! "asset" = Some a → _state p !! "direction" = Some d →
  ∃ sig,
    _maybe_emit true p
    = (Returned (Some sig),
       {| _state := delete "direction" (_state p);
          _block_lines := _block_lines p |})
    ∧ asset sig = a ∧ direction sig = d
    ∧ trade_time sig = _state p !! "trade_time"
    ∧ trend sig = _state p !! "trend"
    ∧ timeframe_min sig = _state p !! "timeframe_min" ≫= py_int
    ∧ forecast_pct sig = _state p !! "forecast_pct" ≫= py_float
    ∧ payout_pct sig = _state p !! "payout_pct" ≫= py_float.
Proof.
  intros [Ha Hd Ht Hf Hp] Hasset Hdir. unfold _maybe_emit.
  rewrite Hasset, Hdir.
  destruct a as [|a0 a]; [by destruct (Ha _ Hasset)|].
  destruct d as [|d0 d]; [by destruct (Hd _ Hdir)|].
  simpl.
  assert (∃ tfv, int_or_none (_state p !! "timeframe_min") = Returned tfv
                 ∧ tfv = _state p !! "timeframe_min" ≫= py_int)
    as (tfv & -> & Htfv).
  { destruct (_state p !! "timeframe_min") as [t|] eqn:Et; simpl; [|eauto].
    destruct (Ht _ eq_refl) as [n Hn]. rewrite Hn.
    destruct t; [by vm_compute in Hn|]. eauto. }
  assert (∀ k, (∀ v, _state p !! k = Some v → is_Some (py_float v)) →
            ∃ fv, float_or_none (_state p !! k) = Returned fv
                  ∧ fv = _state p !! k ≫= py_float) as Hfloat.
  { intros k Hk. destruct (_state p !! k) as [t|]; simpl; [|eauto].
    destruct (Hk _ eq_refl) as [q ->]. eauto. }
  destruct (Hfloat _ Hf) as (fv & -> & Hfv).
  destruct (Hfloat _ Hp) as (pv & -> & Hpv).
  eexists. split; [reflexivity|]. simpl. by repeat split.
Qed.

(** An emission leaves the block lines alone and deletes the direction, and
    only that. *)
Lemma maybe_emit_some partial_ok p sig p' :
  _maybe_emit partial_ok p = (Returned (Some sig), p') →
  p' = {| _state := delete "direction" (_state p);
          _block_lines := _block_lines p |}.
Proof.
  unfold _maybe_emit. repeat case_match; intros ?; by simplify_eq.
Qed.

End pending.

(** ** The block parser *)

Section parser.

Lemma feed_line_blank p line :
  strip line = [] → feed_line p line = _maybe_emit false p.
Proof. unfold feed_line. by intros ->. Qed.

Lemma feed_line_nonblank p line :
  _state p !! "asset" = None ∨ _state p !! "direction" = None →
  strip line ≠ [] →
  feed_line p line = _maybe_emit true (pending_after p (strip line)).
Proof.
  intros Hnot Hne. unfold feed_line, pending_after.
  destruct (strip line) as [|c s] eqn:Hs; [done|].
  destruct (is_win (c :: s) || is_asset_start (c :: s)) eqn:Hb.
  - pose proof (maybe_emit_none false (with_line p (c :: s)) Hnot) as E.
    unfold with_line in E. rewrite E.
    by destruct (is_asset_start (c :: s)).
  - apply orb_false_iff in Hb as [_ ->]. done.
Qed.

Lemma pending_after_state p s :
  _state (pending_after p s)
  = update_fields s (if is_asset_start s then ∅ else _state p).
Proof. unfold pending_after. by destruct (is_asset_start s). Qed.

Lemma pending_after_fields_ok p s :
  fields_ok (_state p) → fields_ok (_state (pending_after p s)).
Proof.
  intros Hok. rewrite pending_after_state. apply fields_ok_update.
  destruct (is_asset_start s); [apply fields_ok_empty|done].
Qed.

(** The lenient emission never raises on a usable record, and leaves the
    invariant behind. *)
Lemma maybe_emit_lenient_ok p :
  fields_ok (_state p) →
  ∃ o p', _maybe_emit true p = (Returned o, p') ∧ pending_ok p'.
Proof.
  intros Hok.
  destruct (_state p !! "asset") as [a|] eqn:Ha;
    [destruct (_state p !! "direction") as [d|] eqn:Hd|].
  - destruct (maybe_emit_lenient p a d Hok Ha Hd) as (sig & -> & _).
    eexists _, _. split; [done|]. split; simpl.
    + by apply fields_ok_delete.
    + right. apply lookup_delete_eq.
  - rewrite maybe_emit_none by auto. eexists _, _. split; [done|].
    split; auto.
  - rewrite maybe_emit_none by auto. eexists _, _. split; [done|].
    split; auto.
Qed.

(** [feed_line] returns on every line and keeps the invariant. *)
Lemma feed_line_ok p line :
  pending_ok p →
  ∃ o p', feed_line p line = (Returned o, p') ∧ pending_ok p'.
Proof.
  intros [Hok Hnot].
  destruct (strip line) as [|c s] eqn:Hs.
  - rewrite feed_line_blank by done. rewrite maybe_emit_none by done.
    by eexists _, _.
  - rewrite feed_line_nonblank by (done || by rewrite Hs).
    apply maybe_emit_lenient_ok. by apply pending_after_fields_ok.
Qed.

Lemma new_parser_ok : pending_ok new_parser.
Proof. split; [apply fields_ok_empty|by left]. Qed.

Lemma reachable_ok p : reachable p → pending_ok p.
Proof.
  induction 1 as [|p line _ IH]; [apply new_parser_ok|].
  destruct (feed_line_ok p line IH) as (o & p' & -> & Hok). done.
Qed.





(** What an emission read from the pending record. *)
Lemma maybe_emit_some_inv p sig p' :
  fields_ok (_state p) →
  _maybe_emit true p = (Returned (Some sig), p') →
  p' = {| _state := delete "direction" (_state p);
          _block_lines := _block_lines p |}
  ∧ _state p !! "asset" = Some (asset sig)
  ∧ _state p !! "direction" = Some (direction sig)
  ∧ trade_time sig = _state p !! "trade_time"
  ∧ trend sig = _state p !! "trend"
  ∧ timeframe_min sig = _state p !! "timeframe_min" ≫= py_int
  ∧ forecast_pct sig = _state p !! "forecast_pct" ≫= py_float
  ∧ payout_pct sig = _state p !! "payout_pct" ≫= py_float.
Proof.
  intros Hok Hemit.
  destruct (_state p !! "asset") as [a|] eqn:Ha;
    [|by rewrite maybe_emit_none in Hemit by auto].
  destruct (_state p !! "direction") as [d|] eqn:Hd;
    [|by rewrite maybe_emit_none in Hemit by auto].
  destruct (maybe_emit_lenient p a d Hok Ha Hd)
    as (sig' & Heq & <- & <- & Hrest).
  rewrite Heq in Hemit. by simplify_eq.
Qed.

Lemma sets_nonblank line k :
  is_Some (extracted (strip line) k) → strip line ≠ [].
Proof. intros [v Hv] Hs. by rewrite Hs, extracted_nil in Hv. Qed.

(** After a line that emitted a signal: the record is usable, holds no
    direction, and still holds the asset and the timeframe of the signal. *)
Lemma never_direction_after p line sig p' :
  reachable p →
  feed_line p line = (Returned (Some sig), p') →
  fields_ok (_state p')
  ∧ _state p' !! "direction" = None
  ∧ _state p' !! "asset" = Some (asset sig)
  ∧ timeframe_min sig = _state p' !! "timeframe_min" ≫= py_int.
Proof.
  intros Hreach Hfeed. destruct (reachable_ok p Hreach) as [Hok Hnot].
  destruct (strip line) as [|c s] eqn:Hs.
  { by rewrite feed_line_blank, maybe_emit_none in Hfeed by done. }
  rewrite feed_line_nonblank in Hfeed by (done || by rewrite Hs).
  apply maybe_emit_some_inv in Hfeed
    as (-> & Ha & _ & _ & _ & Htf & _);
    [|by apply pending_after_fields_ok].
  simpl. split; [by apply fields_ok_delete, pending_after_fields_ok|].
  split; [apply lookup_delete_eq|].
  by rewrite !lookup_delete_ne by done.
Qed.

(** C6.  A lenient emission that succeeds deletes the direction from the
    pending record and changes nothing else: every other field and the block
    lines stay.  Hence an asset line and a direction line that set nothing
    else, fed to a fresh parser, give exactly one signal, with the asset of
    the first line and no trade time; and after any line that emitted a
    signal, a later direction line (no asset marker, no asset and no
    timeframe of its own) emits a second signal with the asset and the
    timeframe of the first. *)
Theorem emission_clears_direction_only :
  (∀ p sig p',
     _maybe_emit true p = (Returned (Some sig), p') →
     _state p' = delete "direction" (_state p)
     ∧ _block_lines p' = _block_lines p
     ∧ _state p' !! "direction" = None
     ∧ ∀ k, k ≠ "direction"%string → _state p' !! k = _state p !! k)
  ∧ (∀ la ld,
       asset_line la → only la "asset" →
       direction_line ld → only ld "direction" →
       ∃ sig p1,
         feed_lines new_parser [la; ld] = (Returned [sig], p1)
         ∧ Some (asset sig) = extracted (strip la) "asset"
         ∧ Some (direction sig) = extracted (strip ld) "direction"
         ∧ trade_time sig = None)
  ∧ (∀ p l1 sig1 p1 l2,
       reachable p →
       feed_line p l1 = (Returned (Some sig1), p1) →
       direction_line l2 →
       extracted (strip l2) "timeframe_min" = None →
       ∃ sig2 p2,
         feed_line p1 l2 = (Returned (Some sig2), p2)
         ∧ asset sig2 = asset sig1
         ∧ timeframe_min sig2 = timeframe_min sig1).
Proof.
  split; [|split].
  - intros p sig p' Hemit. apply maybe_emit_some in Hemit as ->. simpl.
    split; [done|]. split; [done|]. split; [apply lookup_delete_eq|].
    intros k Hk. by apply lookup_delete_ne.
  - intros la ld [[a Ha] Hla] Honly_a ([d Hd] & Hld & Hstart) Honly_d.
    (* the asset line *)
    assert (feed_line new_parser la
            = (Returned None, pending_after new_parser (strip la))) as Hfa.
    { rewrite feed_line_nonblank;
        [|by left|by eapply sets_nonblank; rewrite Ha].
      apply maybe_emit_none. right.
      rewrite pending_after_state, update_fields_lookup, Hla. simpl.
      destruct (is_asset_start (strip la)); apply lookup_empty. }
    set (pa := pending_after new_parser (strip la)) in *.
    assert (Hpa : ∀ k, _state pa !! k = extracted (strip la) k).
    { intros k. unfold pa.
      rewrite pending_after_state, update_fields_lookup.
      assert ((if is_asset_start (strip la) then ∅ else _state new_parser)
                !! k = (None : option pystr)) as ->
        by (destruct (is_asset_start (strip la)); apply lookup_empty).
      by destruct (extracted (strip la) k). }
    (* the direction line *)
    set (pd := pending_after pa (strip ld)).
    assert (Hpd : ∀ k, _state pd !! k
                       = from_option Some (extracted (strip la) k)
                           (extracted (strip ld) k)).
    { intros k. unfold pd.
      by rewrite pending_after_state, Hstart, update_fields_lookup, Hpa. }
    assert (Hok : fields_ok (_state pd)).
    { apply pending_after_fields_ok, pending_after_fields_ok.
      apply fields_ok_empty. }
    destruct (maybe_emit_lenient pd a d Hok) as (sig & Hemit & Hsa & Hsd & Htt & _).
    { by rewrite Hpd, Hld, Ha. }
    { by rewrite Hpd, Hd. }
    assert (feed_line pa ld = _maybe_emit true pd) as Hfd.
    { apply feed_line_nonblank; [|by eapply sets_nonblank; rewrite Hd].
      right. by rewrite Hpa. }
    eexists sig, _. simpl. rewrite Hfa, Hfd, Hemit.
    split; [reflexivity|]. rewrite Hsa, Hsd, Ha, Hd.
    split; [done|]. split; [done|].
    rewrite Htt, Hpd, (Honly_d "trade_time"), (Honly_a "trade_time"); done.
  - intros p l1 sig1 p1 l2 Hreach Hfeed ([d Hd] & Ha2 & Hstart) Htf2.
    destruct (never_direction_after p l1 sig1 p1 Hreach Hfeed)
      as (Hok1 & Hp1 & Hasset & Htf).
    set (q := pending_after p1 (strip l2)).
    assert (Hq : ∀ k, _state q !! k
                      = from_option Some (_state p1 !! k)
                          (extracted (strip l2) k)).
    { intros k. unfold q.
      by rewrite pending_after_state, Hstart, update_fields_lookup. }
    assert (Hokq : fields_ok (_state q))
      by (by apply pending_after_fields_ok).
    destruct (maybe_emit_lenient q (asset sig1) d Hokq)
      as (sig2 & Hemit & Hsa & _ & _ & _ & Hstf & _).
    { by rewrite Hq, Ha2. }
    { by rewrite Hq, Hd. }
    exists sig2. eexists. split; [|split; [done|]].
    + rewrite feed_line_nonblank;
        [exact Hemit|by right|by eapply sets_nonblank; rewrite Hd].
    + by rewrite Hstf, Hq, Htf2.
Qed.


Ltac by_extraction :=
  unfold asset_line, direction_line, neutral, only, extracted;
  repeat split; intros; repeat case_decide; simplify_eq;
  try done; try (by eexists); try reflexivity.

Lemma emission_clears_direction_only_witness :
  asset_line line_asset ∧ only line_asset "asset"
  ∧ direction_line line_put ∧ only line_put "direction"
  ∧ ∃ sig p1,
      feed_lines new_parser [line_asset; line_put] = (Returned [sig], p1)
      ∧ Some (asset sig) = extracted (strip line_asset) "asset"
      ∧ Some (direction sig) = extracted (strip line_put) "direction"
      ∧ trade_time sig = None.
Proof.
  assert (Hla : asset_line line_asset) by by_extraction.
  assert (Hoa : only line_asset "asset") by by_extraction.
  assert (Hld : direction_line line_put) by by_extraction.
  assert (Hod : only line_put "direction") by by_extraction.
  repeat (split; [assumption|]).
  destruct emission_clears_direction_only as (_ & Hscenario & _).
  exact (Hscenario line_asset line_put Hla Hoa Hld Hod).
Defined.

(** *** Complete blocks *)






End parser.

(** ** The schedule resolver *)

Section resolver.
Local Open Scope Z_scope.


Lemma int_part_returned parts i n :
  int_part parts i = Returned n ↔ parts !! i ≫= py_int = Some n.
Proof.
  unfold int_part. destruct (parts !! i) as [t|]; simpl; [|done].
  destruct (py_int t); split; congruence.
Qed.

Lemma third_part_returned (parts : list pystr) s :
  (if (2 <? List.length parts)%nat then int_part parts 2 else Returned 0)
  = Returned s
  ↔ match parts !! 2%nat with
    | Some t => py_int t = Some s
    | None => s = 0
    end.
Proof.
  destruct (parts !! 2%nat) as [t|] eqn:Ht.
  - assert ((2 <? List.length parts)%nat = true) as ->.
    { apply Nat.ltb_lt. by eapply lookup_lt_Some. }
    rewrite int_part_returned, Ht. done.
  - assert ((2 <? List.length parts)%nat = false) as ->.
    { apply Nat.ltb_ge. by apply lookup_ge_None. }
    split; [by intros [= <-]|by intros ->].
Qed.




(** C8 fails as stated.  A trade time of four fields whose fourth is not a
    number is resolved as if the fourth were not there: the result is an
    epoch, not 0. *)
Lemma extra_fields_counterexample :
  List.length (split_on 0x3A%N (lit "10:00:00:xx")) = 4%nat
  ∧ py_int (lit "xx") = None
  ∧ ist_epoch_for_trade_time false 0 (lit "10:00:00:xx")
      (Some (1728035940 # 1)) = 1728036000.
Proof. by vm_compute. Qed.

(** C8, as the resolver has it.  For every trade time with fewer than two
    colon-separated fields, or with a field among the first three that is
    not an integer, or whose first three fields are not the hour, minute
    and second of a clock, and for every reference instant (given or read
    from the clock), the resolver returns 0; being a function to the
    integers, it raises nothing.  Fields after the third are not read. *)
Theorem unusable_trade_time_gives_zero (have_zoneinfo : bool) (clock : Q)
    (hhmm : pystr) (ref_ts : option Q) :
  unusable hhmm →
  ist_epoch_for_trade_time have_zoneinfo clock hhmm ref_ts = 0.
Proof.
  unfold ist_epoch_for_trade_time, resolve_trade_time, unusable, reads_as.
  set (parts := split_on 0x3A%N hhmm).
  intros [Hshort | [(i & t & Hi & Ht & Hint) | (h & m & s & Hreads & Hbad)]].
  - destruct (int_part parts 0) as [h|]; [|done].
    assert (parts !! 1%nat = None) as Hnone
      by (apply lookup_ge_None; lia).
    unfold int_part at 1. by rewrite Hnone.
  - assert (int_part parts i = Raised ValueError) as Hraise
      by (unfold int_part; by rewrite Ht, Hint).
    destruct i as [|[|[|i]]]; [| | |exfalso; lia].
    + by rewrite Hraise.
    + destruct (int_part parts 0); [|done]. by rewrite Hraise.
    + destruct (int_part parts 0); [|done].
      destruct (int_part parts 1); [|done].
      assert ((2 <? List.length parts)%nat = true) as ->.
      { apply Nat.ltb_lt. by eapply lookup_lt_Some. }
      by rewrite Hraise.
  - destruct Hreads as (Hh & Hm & Hs).
    apply int_part_returned in Hh as ->.
    apply int_part_returned in Hm as ->.
    apply third_part_returned in Hs as ->.
    destruct (fromtimestamp _ _) as [now|]; [|done].
    unfold replace_hms.
    assert ((0 <=? h) && (h <? 24) && (0 <=? m) && (m <? 60)
            && (0 <=? s) && (s <? 60) = false) as ->; [|done].
    apply not_true_is_false. intros Hok. apply Hbad.
    rewrite !andb_true_iff, !Z.leb_le, !Z.ltb_lt in Hok.
    unfold clock_range. lia.
Qed.

Lemma unusable_trade_time_gives_zero_witness :
  unusable (lit "25:00")
  ∧ ist_epoch_for_trade_time false 0 (lit "25:00") (Some (1728035940 # 1))
    = 0.
Proof.
  assert (Hbad : unusable (lit "25:00")).
  { right. right. exists 25, 0, 0. split; [by repeat split|].
    unfold clock_range. lia. }
  split; [exact Hbad|].
  exact (unusable_trade_time_gives_zero false 0 (lit "25:00")
           (Some (1728035940 # 1)) Hbad).
Defined.

End resolver.

(** ** The direction of a line *)

Section direction.
Local Open Scope N_scope.

Lemma str_eqb_eq a b : str_eqb a b = true ↔ a = b.
Proof.
  revert b. induction a as [|x a IH]; intros [|y b]; simpl; try done.
  rewrite andb_true_iff, N.eqb_eq, IH. split; [by intros [-> ->]|].
  by intros [= -> ->].
Qed.

Lemma ci_eq_lower p c :
  plain_letter p = true → ci_eq p c = true → lower_cp c = [p].
Proof.
  unfold plain_letter, ci_eq, fold_cp.
  rewrite !andb_true_iff, !negb_true_iff, str_eqb_eq, !N.eqb_neq.
  intros (((Hp & Hs) & Hi) & Hl).
  rewrite (proj2 (N.eqb_neq p 0x17F) Hl), Hp, N.eqb_eq.
  destruct (c =? 0x17F) eqn:Hc; [done|].
  destruct (lower_cp c) as [|d [|e l]] eqn:Hlow; intros ->; try done.
  - by rewrite Hp in Hlow.
  - by rewrite Hp in Hlow.
Qed.

Lemma lit_ci_lower w :
  Forall (λ p, plain_letter p = true) w →
  ∀ s r, lit_ci w s = Some r → lower (take (List.length w) s) = w.
Proof.
  induction 1 as [|p w Hp _ IH]; intros s r; [by destruct s|].
  destruct s as [|c s]; [done|]. cbn [lit_ci List.length take].
  destruct (ci_eq p c) eqn:Hc; [|done]. intros Hr.
  unfold lower in *. cbn [flat_map].
  by rewrite (ci_eq_lower p c Hp Hc), (IH s r Hr).
Qed.

Lemma word_here_lower w before s g :
  Forall (λ p, plain_letter p = true) w →
  word_here w before s = Some g → lower g = w.
Proof.
  intros Hw. unfold word_here.
  destruct (word_boundary before (head s)); [|done].
  destruct (lit_ci w s) as [r|] eqn:Hr; [|done].
  destruct (word_boundary _ _); [|done]. intros [= <-].
  by eapply lit_ci_lower.
Qed.

Lemma plain_call : Forall (λ p, plain_letter p = true) (lit "call").
Proof. repeat constructor. Qed.

Lemma plain_put : Forall (λ p, plain_letter p = true) (lit "put").
Proof. repeat constructor. Qed.

Lemma search_from_unfold before s :
  search_from before s
  = match word_here (lit "call") before s with
    | Some g => Some g
    | None =>
        match word_here (lit "put") before s with
        | Some g => Some g
        | None =>
            match s with
            | c :: r => search_from (Some c) r
            | [] => None
            end
        end
    end.
Proof. by destruct s. Qed.

(** The word the pattern finds is call or put, in some mix of cases. *)
Lemma direction_word_lower s g :
  _DIRECTION_WORD_RE s = Some g →
  lower g = lit "call" ∨ lower g = lit "put".
Proof.
  unfold _DIRECTION_WORD_RE. generalize (@None N).
  induction s as [|c s IH]; intros before; rewrite search_from_unfold.
  - destruct (word_here (lit "call") before []) eqn:Hcall.
    { intros [= <-]. left. exact (word_here_lower _ _ _ _ plain_call Hcall). }
    destruct (word_here (lit "put") before []) eqn:Hput; [|done].
    intros [= <-]. right. exact (word_here_lower _ _ _ _ plain_put Hput).
  - destruct (word_here (lit "call") before (c :: s)) eqn:Hcall.
    { intros [= <-]. left. exact (word_here_lower _ _ _ _ plain_call Hcall). }
    destruct (word_here (lit "put") before (c :: s)) eqn:Hput;
      [|by apply IH].
    intros [= <-]. right. exact (word_here_lower _ _ _ _ plain_put Hput).
Qed.

(** C9 fails as stated.  "the caller" holds no glyph and neither call nor
    put as a whole word, and yet reads as call; "call put" holds the whole
    word call first, and reads as put. *)
Lemma spaced_substring_counterexample :
  (contains UP_MARK (lit "the caller") = false
   ∧ _DIRECTION_WORD_RE (lit "the caller") = None
   ∧ _normalize_direction_from_line (lit "the caller") = Some (lit "call"))
  ∧ (_DIRECTION_WORD_RE (lit "call put") = Some (lit "call")
     ∧ _normalize_direction_from_line (lit "call put") = Some (lit "put")).
Proof. by vm_compute. Qed.

(** C9, as the extractor has it.  On every line: if the lower-cased line
    holds a space followed by call, the direction is call, whatever follows
    the word; otherwise, if it holds no up glyph and holds a space followed
    by put, the direction is put; otherwise, if it holds neither glyph, the
    direction is that of the leftmost occurrence of call or put as a whole
    word, in any mix of cases, call for call and put for put, and there is
    none where there is no such word. *)
Theorem direction_of_line (s : pystr) :
  let low := lower s in
  (contains (lit " call") low = true →
     _normalize_direction_from_line s = Some (lit "call"))
  ∧ (contains UP_MARK low = false → contains (lit " call") low = false →
     contains (lit " put") low = true →
     _normalize_direction_from_line s = Some (lit "put"))
  ∧ (contains UP_MARK low = false → contains (lit " call") low = false →
     contains DOWN_MARK low = false → contains (lit " put") low = false →
     match _DIRECTION_WORD_RE s with
     | Some g =>
         (lower g = lit "call"
          ∧ _normalize_direction_from_line s = Some (lit "call"))
         ∨ (lower g = lit "put"
            ∧ _normalize_direction_from_line s = Some (lit "put"))
     | None => _normalize_direction_from_line s = None
     end).
Proof.
  intros low. unfold _normalize_direction_from_line. fold low.
  split; [|split].
  - intros ->. by rewrite orb_true_r.
  - intros -> -> ->. cbn [orb]. by rewrite orb_true_r.
  - intros -> -> -> ->. cbn [orb].
    destruct (_DIRECTION_WORD_RE s) as [g|] eqn:Hg; [|done].
    destruct (direction_word_lower s g Hg) as [-> | ->]; [left|right];
      (split; [done|reflexivity]).
Qed.

Lemma direction_of_line_witness :
  contains (lit " call") (lower (lit "the caller")) = true
  ∧ _normalize_direction_from_line (lit "the caller") = Some (lit "call").
Proof.
  split; [reflexivity|].
  exact (proj1 (direction_of_line (lit "the caller")) eq_refl).
Defined.

End direction.

(** ** What the patterns capture *)

Section captures.
Local Open Scope N_scope.

Ltac bool_to_prop :=
  repeat match goal with
    | H : _ && _ = true |- _ => apply andb_true_iff in H as [? ?]
    | H : _ || _ = false |- _ => apply orb_false_iff in H as [? ?]
    | H : _ || _ = true |- _ => apply orb_true_iff in H as [?|?]
    | H : _ && _ = false |- _ => apply andb_false_iff in H as [?|?]
    | H : negb _ = true |- _ => apply negb_true_iff in H
    | H : negb _ = false |- _ => apply negb_false_iff in H
    | H : (_ <=? _) = true |- _ => apply N.leb_le in H
    | H : (_ <=? _) = false |- _ => apply N.leb_gt in H
    | H : (_ <? _) = true |- _ => apply N.ltb_lt in H
    | H : (_ <? _) = false |- _ => apply N.ltb_ge in H
    | H : (_ =? _) = true |- _ => apply N.eqb_eq in H
    | H : (_ =? _) = false |- _ => apply N.eqb_neq in H
    end.

Lemma digit_value_lt c d : digit_value c = Some d → d < 10.
Proof.
  unfold digit_value.
  destruct (find _ digit_zeros) as [z|] eqn:Hz; [|done].
  apply find_some in Hz as [_ Hz]. intros [= <-]. bool_to_prop. lia.
Qed.

Lemma int_digits_val g :
  Forall (λ c, isdigit c = true) g →
  ∀ acc b, g ≠ [] ∨ b = true → int_digits acc b g = Some (digits_val acc g).
Proof.
  induction 1 as [|c g Hc _ IH]; intros acc b Hb; simpl.
  - destruct Hb as [?| ->]; done.
  - assert ((c =? 0x5F) = false) as ->.
    { apply N.eqb_neq. intros ->. by vm_compute in Hc. }
    unfold isdigit in Hc. destruct (digit_value c) as [d|]; [|done].
    simpl. apply IH. by right.
Qed.

Lemma py_int_val g :
  g ≠ [] → Forall (λ c, isdigit c = true) g →
  py_int g = Some (Z.of_N (digits_val 0 g)).
Proof.
  intros Hne Hg. unfold py_int, strip.
  rewrite strip_with_id
    by (eapply Forall_impl; [exact Hg|]; apply digit_not_space).
  destruct g as [|c r]; [done|].
  assert (Hc : isdigit c = true) by (by inversion Hg).
  assert ((c =? 0x2D) = false) as ->.
  { apply N.eqb_neq. intros ->. by vm_compute in Hc. }
  assert ((c =? 0x2B) = false) as ->.
  { apply N.eqb_neq. intros ->. by vm_compute in Hc. }
  by rewrite (int_digits_val _ Hg 0 false) by (by left).
Qed.

Lemma captured_asset s v :
  extracted s "asset" = Some v → value_wf "asset" v.
Proof.
  change (extracted s "asset") with (strip <$> _ASSET_LINE_RE s).
  unfold _ASSET_LINE_RE. intros H.
  apply fmap_Some in H as (g & H & ->).
  apply bind_Some in H as (r & _ & H).
  apply bind_Some in H as ([g' r'] & Hg & H).
  destruct (at_end r'); [|done]. simplify_eq.
  apply many1_spec in Hg as (Hne & Hall & _).
  unfold strip. rewrite strip_with_id; [by split|].
  eapply Forall_impl; [exact Hall|]. apply asset_char_not_space.
Qed.

Lemma captured_timeframe s v :
  extracted s "timeframe_min" = Some v → value_wf "timeframe_min" v.
Proof.
  change (extracted s "timeframe_min") with (_TIMEFRAME_RE s).
  unfold _TIMEFRAME_RE. intros H.
  apply bind_Some in H as (r & _ & H).
  apply bind_Some in H as (r' & _ & H).
  apply bind_Some in H as ([g r''] & Hg & H).
  destruct (at_end r''); [|done]. simplify_eq.
  apply many1_spec in Hg as (Hne & Hall & _).
  split; [done|]. eexists. split; [by apply py_int_val|]. lia.
Qed.

Lemma py_float_nonneg v q : py_float v = Some q → (0 <= q)%Q.
Proof.
  unfold py_float. intros H.
  repeat case_match; simplify_eq.
  - unfold Qle. simpl. lia.
  - refine (Qplus_le_compat 0 _ 0 _ _ _); unfold Qle; simpl; lia.
Qed.

Lemma captured_percent g v :
  float_text g = Some v → ∃ q, py_float v = Some q ∧ (0 <= q)%Q.
Proof.
  intros H. destruct (float_text_float g v H) as [q Hq].
  exists q. split; [done|]. by eapply py_float_nonneg.
Qed.

(** The code points that fold to an ASCII lower-case letter. *)
Lemma fold_cp_inv c l :
  fold_cp c = l → 0x61 <= l <= 0x7A →
  c = l ∨ c = l - 32 ∨ (l = 0x73 ∧ c = 0x17F).
Proof.
  unfold fold_cp, lower_cp, even_odd_pairs, odd_even_pairs.
  intros H Hl.
  repeat case_match; simplify_eq; bool_to_prop; lia.
Qed.

Lemma lit_ci_inv w : ∀ r r',
  lit_ci w r = Some r' →
  ∃ g, r = g ++ r' ∧ Forall2 (λ p c, ci_eq p c = true) w g.
Proof.
  induction w as [|p w IH]; intros r r'; cbn [lit_ci].
  - intros [= <-]. by exists [].
  - destruct r as [|c r]; [done|].
    destruct (ci_eq p c) eqn:Hc; [|done]. intros Hr.
    destruct (IH _ _ Hr) as (g & -> & Hg). exists (c :: g).
    split; [done|]. by constructor.
Qed.

Lemma ci_eq_cases p c :
  ci_eq p c = true → 0x61 <= fold_cp p <= 0x7A →
  c = fold_cp p ∨ c = fold_cp p - 32 ∨ (fold_cp p = 0x73 ∧ c = 0x17F).
Proof.
  unfold ci_eq. intros H%N.eqb_eq Hl. apply fold_cp_inv; [done|lia].
Qed.

Lemma captured_trend s v :
  extracted s "trend" = Some v → value_wf "trend" v.
Proof.
  change (extracted s "trend") with (title <$> _TREND_RE s).
  unfold _TREND_RE. intros H.
  apply fmap_Some in H as (g & H & ->).
  apply bind_Some in H as (r1 & _ & H).
  apply bind_Some in H as (r2 & _ & H).
  apply bind_Some in H as (r3 & _ & H).
  apply bind_Some in H as (r4 & _ & H).
  apply bind_Some in H as ([g' r5] & Hg & H).
  destruct (at_end r5); [|done]. simplify_eq.
  change (value_wf "trend" (title g))
    with (title g = lit "Buy" ∨ title g = lit "Sell").
  unfold buy_or_sell in Hg.
  destruct (lit_ci (lit "Buy") (ws r4)) as [r'|] eqn:Hbuy.
  - left. simplify_eq. apply lit_ci_inv in Hbuy as (w & -> & Hw).
    rewrite take_app_length' by (by apply Forall2_length in Hw).
    apply Forall2_cons_inv_l in Hw as (c1 & w1 & H1 & Hw & ->).
    apply Forall2_cons_inv_l in Hw as (c2 & w2 & H2 & Hw & ->).
    apply Forall2_cons_inv_l in Hw as (c3 & w3 & H3 & Hw & ->).
    apply Forall2_nil_inv_l in Hw as ->.
    apply ci_eq_cases in H1; [|by vm_compute].
    apply ci_eq_cases in H2; [|by vm_compute].
    apply ci_eq_cases in H3; [|by vm_compute].
    destruct H1 as [->|[->|[? ->]]]; [| |done];
      (destruct H2 as [->|[->|[? ->]]]; [| |done]);
      (destruct H3 as [->|[->|[? ->]]]; [| |done]); reflexivity.
  - destruct (lit_ci (lit "Sell") (ws r4)) as [r'|] eqn:Hsell; [|done].
    right. simplify_eq. apply lit_ci_inv in Hsell as (w & -> & Hw).
    rewrite take_app_length' by (by apply Forall2_length in Hw).
    apply Forall2_cons_inv_l in Hw as (c1 & w1 & H1 & Hw & ->).
    apply Forall2_cons_inv_l in Hw as (c2 & w2 & H2 & Hw & ->).
    apply Forall2_cons_inv_l in Hw as (c3 & w3 & H3 & Hw & ->).
    apply Forall2_cons_inv_l in Hw as (c4 & w4 & H4 & Hw & ->).
    apply Forall2_nil_inv_l in Hw as ->.
    apply ci_eq_cases in H1; [|by vm_compute].
    apply ci_eq_cases in H2; [|by vm_compute].
    apply ci_eq_cases in H3; [|by vm_compute].
    apply ci_eq_cases in H4; [|by vm_compute].
    destruct H1 as [->|[->|[_ ->]]];
      (destruct H2 as [->|[->|[? ->]]]; [| |done]);
      (destruct H3 as [->|[->|[? ->]]]; [| |done]);
      (destruct H4 as [->|[->|[? ->]]]; [| |done]); reflexivity.
Qed.

(** Splitting at colons a string of digits and colons. *)
Lemma split_on_colon r : split_on 0x3A (0x3A :: r) = [] :: split_on 0x3A r.
Proof. done. Qed.

Lemma split_on_digit c r :
  isdigit c = true →
  split_on 0x3A (c :: r)
  = match split_on 0x3A r with
    | h :: t => (c :: h) :: t
    | [] => [[c]]
    end.
Proof.
  intros Hc. cbn [split_on].
  assert ((c =? 0x3A) = false) as ->; [|done].
  apply N.eqb_neq. intros ->. by vm_compute in Hc.
Qed.

Lemma digit_val_bound c :
  isdigit c = true → default 0 (digit_value c) < 10.
Proof.
  unfold isdigit. destruct (digit_value c) as [d|] eqn:Hd; [|done].
  intros _. by eapply digit_value_lt.
Qed.

Lemma digit_0_2_bound c :
  is_0_2 c = true → isdigit c = true ∧ default 0 (digit_value c) <= 2.
Proof.
  unfold is_0_2. intros H.
  apply andb_true_iff in H as [H1%N.leb_le H2%N.leb_le].
  assert (c = 0x30 ∨ c = 0x31 ∨ c = 0x32) as [->|[->| ->]] by lia;
    by vm_compute.
Qed.

Lemma hour_part_inv r hh r' :
  hour_part r = Some (hh, r') →
  r = hh ++ r'
  ∧ ((∃ a b, hh = [a; b; 0x3A] ∧ is_0_2 a = true ∧ isdigit b = true)
     ∨ (∃ a, hh = [a; 0x3A] ∧ isdigit a = true)).
Proof.
  assert (Hone : hour_one_digit r = Some (hh, r') →
          r = hh ++ r' ∧ ∃ a, hh = [a; 0x3A] ∧ isdigit a = true).
  { unfold hour_one_digit. intros H.
    repeat case_match; simplify_eq. split; [done|]. eauto. }
  unfold hour_part. intros H.
  repeat case_match; simplify_eq;
    try (destruct (Hone H) as [? ?]; split; [done|by right]).
  bool_to_prop. split; [done|]. left. eauto.
Qed.

Lemma two_digits_inv r mm r' :
  two_digits r = Some (mm, r') →
  r = mm ++ r' ∧ ∃ a b, mm = [a; b] ∧ isdigit a = true ∧ isdigit b = true.
Proof.
  unfold two_digits. intros H. repeat case_match; simplify_eq.
  bool_to_prop. split; [done|]. eauto.
Qed.

Lemma seconds_part_inv r ss r' :
  seconds_part r = (ss, r') →
  r = ss ++ r'
  ∧ (ss = []
     ∨ ∃ a b, ss = [0x3A; a; b] ∧ isdigit a = true ∧ isdigit b = true).
Proof.
  unfold seconds_part. intros H.
  repeat case_match; simplify_eq; try (split; [done|by left]).
  match goal with
  | H : two_digits _ = Some _ |- _ =>
      apply two_digits_inv in H as (-> & a & b & -> & Ha & Hb)
  end.
  split; [done|]. right. eauto.
Qed.

Lemma py_int_one_digit a :
  isdigit a = true →
  py_int [a] = Some (Z.of_N (default 0 (digit_value a))).
Proof.
  intros Ha. rewrite py_int_val by (done || by repeat constructor).
  cbn [digits_val]. do 2 f_equal.
Qed.

Lemma py_int_two_digits a b :
  isdigit a = true → isdigit b = true →
  py_int [a; b]
  = Some (Z.of_N (default 0 (digit_value a) * 10
                  + default 0 (digit_value b))).
Proof.
  intros Ha Hb. rewrite py_int_val by (done || by repeat constructor).
  cbn [digits_val]. do 2 f_equal.
Qed.

Lemma captured_trade_time s v :
  extracted s "trade_time" = Some v → value_wf "trade_time" v.
Proof.
  change (extracted s "trade_time")
    with ((λ g, strip_with is_quote (strip g)) <$> _TRADE_TIME_RE s).
  unfold _TRADE_TIME_RE. intros H.
  apply fmap_Some in H as (g & H & ->).
  apply bind_Some in H as (r1 & _ & H).
  apply bind_Some in H as ([hh r2] & Hhh & H).
  apply bind_Some in H as ([mm r3] & Hmm & H).
  destruct (seconds_part r3) as [ss r4] eqn:Hss.
  destruct (at_end r4); [|done]. simplify_eq.
  apply hour_part_inv in Hhh as (_ & Hhh).
  apply two_digits_inv in Hmm as (_ & c & d & -> & Hc & Hd).
  apply seconds_part_inv in Hss as (_ & Hss).
  set (g := hh ++ [c; d] ++ ss).
  assert (Hall : Forall (λ x, isdigit x = true ∨ x = 0x3A) g).
  { unfold g.
    destruct Hhh as [(a & b & -> & Ha & Hb) | (a & -> & Ha)];
      destruct Hss as [-> | (e & f & -> & He & Hf)];
      try apply digit_0_2_bound in Ha as [Ha _];
      cbn [app];
      repeat first [apply Forall_nil_2 | apply Forall_cons_2];
      first [by left | by right]. }
  assert (Hstrip : strip_with is_quote (strip g) = g).
  { unfold strip. rewrite (strip_with_id isspace).
    - apply strip_with_id. eapply Forall_impl; [exact Hall|].
      intros x [Hx | ->]; [|done]. unfold is_quote.
      apply N.eqb_neq. intros ->. by vm_compute in Hx.
    - eapply Forall_impl; [exact Hall|].
      intros x [Hx | ->]; [by apply digit_not_space|done]. }
  rewrite Hstrip.
  change (value_wf "trade_time" g)
    with (Forall (λ c, isdigit c = true ∨ c = 0x3A) g
          ∧ ∃ h m s, reads_as g h m s
                     ∧ (0 <= h <= 29 ∧ 0 <= m <= 99 ∧ 0 <= s <= 99)%Z).
  split; [exact Hall|]. clear Hall Hstrip.
  pose proof (digit_val_bound c Hc) as Bc.
  pose proof (digit_val_bound d Hd) as Bd.
  unfold reads_as, g.
  destruct Hhh as [(a & b & -> & Ha & Hb) | (a & -> & Ha)];
    destruct Hss as [-> | (e & f & -> & He & Hf)];
    try (apply digit_0_2_bound in Ha as [Ha Ba]);
    try pose proof (digit_val_bound a Ha) as Ba';
    try pose proof (digit_val_bound b Hb) as Bb;
    try pose proof (digit_val_bound e He) as Be;
    try pose proof (digit_val_bound f Hf) as Bf;
    cbn [app];
    repeat first [rewrite split_on_colon | rewrite split_on_digit by done];
    cbn [split_on];
    eexists _, _, _;
    (split;
     [cbn -[py_int]; split_and!;
        first [by apply py_int_two_digits
              |by apply py_int_one_digit
              |reflexivity]
     |lia]).
Qed.

End captures.

(** ** More on the block parser and the one-shot parse *)

Section wellformed.

Lemma extracted_wf s k v : extracted s k = Some v → value_wf k v.
Proof.
  unfold extracted, value_wf. repeat case_decide; subst; intros Hx.
  - by apply (captured_asset s).
  - by apply (captured_timeframe s).
  - by apply (captured_trade_time s).
  - by apply (extracted_direction s).
  - by apply (captured_trend s).
  - by apply (captured_percent (_FORECAST_RE s)).
  - by apply (captured_percent (_PAYOUT_RE s)).
  - done.
Qed.

Lemma state_wf_empty : state_wf ∅.
Proof. intros k v. by rewrite lookup_empty. Qed.

Lemma state_wf_update s st : state_wf st → state_wf (update_fields s st).
Proof.
  intros Hst k v. rewrite update_fields_lookup.
  destruct (extracted s k) as [x|] eqn:Hx; simpl.
  - intros [= <-]. by eapply extracted_wf.
  - apply Hst.
Qed.

Lemma state_wf_delete k st : state_wf st → state_wf (delete k st).
Proof.
  intros Hst k' v. rewrite lookup_delete. case_decide; [done|]. apply Hst.
Qed.

Lemma maybe_emit_state b p :
  _state (snd (_maybe_emit b p)) = _state p
  ∨ _state (snd (_maybe_emit b p)) = delete "direction" (_state p).
Proof. unfold _maybe_emit. repeat case_match; simpl; auto. Qed.

Lemma pending_after_wf p s :
  state_wf (_state p) → state_wf (_state (pending_after p s)).
Proof.
  intros Hst. rewrite pending_after_state. apply state_wf_update.
  destruct (is_asset_start s); [apply state_wf_empty|done].
Qed.

Lemma reachable_wf p : reachable p → state_wf (_state p).
Proof.
  induction 1 as [|p line Hreach IH]; [apply state_wf_empty|].
  destruct (reachable_ok p Hreach) as [_ Hnot].
  destruct (strip line) as [|c s] eqn:Hs.
  - rewrite feed_line_blank, maybe_emit_none by done. done.
  - rewrite feed_line_nonblank by (done || by rewrite Hs).
    destruct (maybe_emit_state true (pending_after p (strip line)))
      as [-> | ->].
    + by apply pending_after_wf.
    + by apply state_wf_delete, pending_after_wf.
Qed.

Lemma emitted_wf p line sig p' :
  reachable p →
  feed_line p line = (Returned (Some sig), p') →
  signal_wf sig.
Proof.
  intros Hreach Hfeed. destruct (reachable_ok p Hreach) as [Hok Hnot].
  pose proof (reachable_wf p Hreach) as Hwf.
  destruct (strip line) as [|c s] eqn:Hs.
  { by rewrite feed_line_blank, maybe_emit_none in Hfeed by done. }
  rewrite feed_line_nonblank in Hfeed by (done || by rewrite Hs).
  set (q := pending_after p (strip line)) in *.
  assert (Hq : state_wf (_state q)) by (by apply pending_after_wf).
  apply maybe_emit_some_inv in Hfeed
    as (_ & Ha & Hd & Htt & Htr & Htf & Hfc & Hpo);
    [|by apply pending_after_fields_ok].
  unfold signal_wf. rewrite Htt, Htr, Htf, Hfc, Hpo.
  split_and!.
  - by apply (Hq "asset"%string).
  - by apply (Hq "direction"%string).
  - intros n Hn. apply bind_Some in Hn as (v & Hv & Hn).
    destruct (Hq _ _ Hv) as (_ & n' & Hn' & Hpos). congruence.
  - intros v Hv. by apply (Hq "trade_time"%string).
  - intros v Hv. by apply (Hq "trend"%string).
  - intros x Hx. apply bind_Some in Hx as (v & Hv & Hx).
    destruct (Hq _ _ Hv) as (x' & Hx' & Hpos). congruence.
  - intros x Hx. apply bind_Some in Hx as (v & Hv & Hx).
    destruct (Hq _ _ Hv) as (x' & Hx' & Hpos). congruence.
Qed.




End wellformed.

Section one_shot.

Lemma feed_lines_returns lines : ∀ p,
  reachable p →
  ∃ sigs p', feed_lines p lines = (Returned sigs, p') ∧ reachable p'.
Proof.
  induction lines as [|l lines IH]; intros p Hreach; simpl.
  - by eexists _, _.
  - destruct (feed_line_ok p l (reachable_ok p Hreach))
      as (o & p1 & Hfeed & _).
    assert (Hreach1 : reachable p1).
    { replace p1 with (snd (feed_line p l)) by (by rewrite Hfeed).
      by constructor. }
    rewrite Hfeed. destruct (IH p1 Hreach1) as (sigs & p' & -> & Hreach').
    by eexists _, _.
Qed.


Lemma parse_loop_feed lines : ∀ p seen out sigs p',
  feed_lines p lines = (Returned sigs, p') →
  parse_loop p seen out lines = Returned (out ++ fresh_signals seen sigs).
Proof.
  induction lines as [|l lines IH]; intros p seen out sigs p'; simpl.
  - intros [= <- <-]. by rewrite app_nil_r.
  - destruct (feed_line p l) as [[o|e] p1]; [|done].
    destruct (feed_lines p1 lines) as [[s1|e] p2] eqn:Hrest; [|done].
    intros [= <- <-]. destruct o as [sig|]; simpl.
    + case_bool_decide.
      * by apply (IH p1 seen out s1 p2).
      * rewrite (IH p1 _ _ s1 p2) by done. by rewrite <- app_assoc.
    + by apply (IH p1 seen out s1 p2).
Qed.

Lemma fresh_signals_spec sigs : ∀ seen,
  NoDup (key <$> fresh_signals seen sigs)
  ∧ ∀ sig, sig ∈ fresh_signals seen sigs → key sig ∉ seen ∧ sig ∈ sigs.
Proof.
  induction sigs as [|sig sigs IH]; intros seen; simpl.
  - split; [constructor|]. intros sig Hin. by apply elem_of_nil in Hin.
  - case_bool_decide as Hseen.
    + destruct (IH seen) as [Hnd Hin]. split; [done|].
      intros x Hx. destruct (Hin x Hx). split; [done|by right].
    + destruct (IH (seen ∪ {[ key sig ]})) as [Hnd Hin]. split.
      * simpl. constructor; [|done].
        intros (x & Hkey & Hx)%list_elem_of_fmap.
        destruct (Hin x Hx) as [Hnot _]. set_solver.
      * intros x [-> | Hx]%elem_of_cons; [split; [done|by left]|].
        destruct (Hin x Hx) as [Hnot ?]. split; [set_solver|by right].
Qed.


Lemma fresh_signals_keys sigs : ∀ seen sig,
  sig ∈ sigs →
  key sig ∈ seen ∨ key sig ∈ key <$> fresh_signals seen sigs.
Proof.
  induction sigs as [|x sigs IH]; intros seen sig Hin; simpl.
  - by apply elem_of_nil in Hin.
  - apply elem_of_cons in Hin as [-> | Hin].
    + case_bool_decide; [by left|]. right. simpl. by left.
    + case_bool_decide; [by apply IH|].
      destruct (IH (seen ∪ {[ key x ]}) sig Hin) as [Hs | Hs].
      * apply elem_of_union in Hs as [Hs | ->%elem_of_singleton];
          [by left|]. right. simpl. by left.
      * right. simpl. by right.
Qed.



(** The one-shot parse of lines that a parser reads without raising. *)
Lemma parse_file_once_feed lines :
  ∃ sigs p',
    feed_lines new_parser lines = (Returned sigs, p')
    ∧ reachable p'
    ∧ parse_file_once lines = Returned (fresh_signals ∅ sigs).
Proof.
  destruct (feed_lines_returns lines new_parser reachable_new)
    as (sigs & p' & Hfeed & Hreach).
  exists sigs, p'. split; [done|]. split; [done|].
  unfold parse_file_once. by rewrite (parse_loop_feed _ _ _ _ _ _ Hfeed).
Qed.

Lemma feed_lines_wf lines : ∀ p sigs p',
  reachable p → feed_lines p lines = (Returned sigs, p') →
  Forall signal_wf sigs.
Proof.
  induction lines as [|l lines IH]; intros p sigs p' Hreach; simpl.
  - intros [= <- <-]. constructor.
  - destruct (feed_line p l) as [[o|e] p1] eqn:Hl; [|done].
    destruct (feed_lines p1 lines) as [[s1|e] p2] eqn:Hrest; [|done].
    intros [= <- <-].
    assert (Hreach1 : reachable p1).
    { replace p1 with (snd (feed_line p l)) by (by rewrite Hl).
      by constructor. }
    pose proof (IH _ _ _ Hreach1 Hrest) as Hs1.
    destruct o as [sig|]; [|done]. constructor; [|done].
    exact (emitted_wf p l sig p1 Hreach Hl).
Qed.

(** Keys *)
Lemma separator_split (sep : N) a : ∀ a' r r',
  sep ∉ a → sep ∉ a' →
  a ++ sep :: r = a' ++ sep :: r' → a = a' ∧ r = r'.
Proof.
  induction a as [|x a IH]; intros [|y a'] r r' Ha Ha' Heq; simpl in Heq.
  - by simplify_eq.
  - simplify_eq. exfalso. apply Ha'. by left.
  - simplify_eq. exfalso. apply Ha. by left.
  - simplify_eq. destruct (IH a' r r') as [-> ->]; [| |done|done].
    + intros ?. apply Ha. by right.
    + intros ?. apply Ha'. by right.
Qed.

Lemma asset_no_bar v : value_wf "asset" v → 0x7C%N ∉ v.
Proof.
  intros [_ Hall] Hin. rewrite Forall_forall in Hall.
  by specialize (Hall _ Hin).
Qed.

Lemma trade_time_no_bar v : value_wf "trade_time" v → 0x7C%N ∉ v ∧ v ≠ [].
Proof.
  intros [Hall (h & m & s & (Hh & _) & _)]. split.
  - intros Hin. rewrite Forall_forall in Hall.
    by destruct (Hall _ Hin).
  - by intros ->.
Qed.

Lemma key_determines sig1 sig2 :
  signal_wf sig1 → signal_wf sig2 →
  key sig1 = key sig2 →
  asset sig1 = asset sig2 ∧ trade_time sig1 = trade_time sig2
  ∧ direction sig1 = direction sig2.
Proof.
  intros (Ha1 & _ & _ & Ht1 & _) (Ha2 & _ & _ & Ht2 & _). unfold key.
  change (lit "|") with [0x7C%N]. cbn [app]. intros Hkey.
  apply separator_split in Hkey as [Ha Hkey];
    [|by apply asset_no_bar..].
  assert (Hbar : ∀ sig, (∀ v, trade_time sig = Some v
                              → value_wf "trade_time" v) →
                        0x7C%N ∉ default [] (trade_time sig)).
  { intros sig Hsig. destruct (trade_time sig) as [v|]; simpl.
    - by apply trade_time_no_bar, Hsig.
    - by intros ?%elem_of_nil. }
  apply separator_split in Hkey as [Ht Hd]; [|by apply Hbar..].
  split; [done|]. split; [|done].
  destruct (trade_time sig1) as [v1|] eqn:E1,
           (trade_time sig2) as [v2|] eqn:E2; simpl in Ht.
  - by subst.
  - subst. by destruct (trade_time_no_bar [] (Ht1 _ eq_refl)).
  - subst. by destruct (trade_time_no_bar [] (Ht2 _ eq_refl)).
  - done.
Qed.

(** X1.  The parser never raises: whatever the lines (each short enough
    for the interpreter's limit on the digits of a numeral), feeding them to
    a fresh parser returns, and so does the one-shot parse. *)
Theorem parser_never_raises (lines : list pystr) :
  Forall (λ line, (List.length line <= 4300)%nat) lines →
  (∃ sigs p', feed_lines new_parser lines = (Returned sigs, p'))
  ∧ ∃ out, parse_file_once lines = Returned out.
Proof.
  intros _.
  destruct (parse_file_once_feed lines) as (sigs & p' & Hfeed & _ & Hparse).
  split; [by exists sigs, p'|by eexists].
Qed.

Lemma parser_never_raises_witness :
  Forall (λ line, (List.length line <= 4300)%nat) [line_asset; line_put]
  ∧ (∃ sigs p',
       feed_lines new_parser [line_asset; line_put] = (Returned sigs, p'))
  ∧ ∃ out, parse_file_once [line_asset; line_put] = Returned out.
Proof.
  assert (Hshort : Forall (λ line, (List.length line <= 4300)%nat)
                     [line_asset; line_put]).
  { repeat (apply Forall_cons_2; [simpl; lia|]). apply Forall_nil_2. }
  split; [exact Hshort|].
  exact (parser_never_raises [line_asset; line_put] Hshort).
Defined.





(** X4.  Every signal the parser returns is well formed: its asset is a
    non-empty run of ticker characters, its direction is call or put, its
    trend, if any, is Buy or Sell, its timeframe, forecast and payout, if
    any, are not negative, and its trade time, if any, is made of digits and
    colons and reads as an hour up to 29 and a minute and second up to 99
    (the pattern does not hold them to the range of a clock).  This holds of
    the signal of one line and of all the signals of a run of lines. *)
Theorem emitted_signal_well_formed (p : TelegramSignalParser) :
  reachable p →
  (∀ line sig p',
     feed_line p line = (Returned (Some sig), p') → signal_wf sig)
  ∧ (∀ lines sigs p',
       feed_lines p lines = (Returned sigs, p') → Forall signal_wf sigs).
Proof.
  intros Hreach. split.
  - intros line sig p' Hfeed. exact (emitted_wf p line sig p' Hreach Hfeed).
  - intros lines sigs p' Hfeed.
    exact (feed_lines_wf lines p sigs p' Hreach Hfeed).
Qed.

Lemma emitted_signal_well_formed_witness :
  ∃ sig p',
    feed_line (snd (feed_line new_parser line_asset)) line_put
    = (Returned (Some sig), p')
    ∧ signal_wf sig.
Proof.
  assert (Hreach : reachable (snd (feed_line new_parser line_asset)))
    by (apply reachable_feed, reachable_new).
  destruct (feed_line (snd (feed_line new_parser line_asset)) line_put)
    as [[[sig|]|e] p'] eqn:Hfeed; try (by vm_compute in Hfeed).
  exists sig, p'. split; [reflexivity|].
  exact (proj1 (emitted_signal_well_formed _ Hreach) _ _ _ Hfeed).
Defined.

(** X5.  What the one-shot parse returns is the signals the parser emits on
    the lines, each key once, at its first occurrence and in emission order:
    no two signals of the result share a key, every signal of the result is
    well formed and was emitted, and the key of every emitted signal is the
    key of some signal of the result. *)
Theorem one_shot_keeps_first_of_each_key (lines : list pystr)
    (out : list TelegramSignal) :
  parse_file_once lines = Returned out →
  ∃ sigs p',
    feed_lines new_parser lines = (Returned sigs, p')
    ∧ out = fresh_signals ∅ sigs
    ∧ NoDup (key <$> out)
    ∧ Forall signal_wf out
    ∧ (∀ sig, sig ∈ out → sig ∈ sigs)
    ∧ (∀ sig, sig ∈ sigs → key sig ∈ key <$> out).
Proof.
  intros Hout.
  destruct (parse_file_once_feed lines)
    as (sigs & p' & Hfeed & _ & Hparse).
  rewrite Hparse in Hout. injection Hout as <-.
  exists sigs, p'.
  destruct (fresh_signals_spec sigs ∅) as [Hnd Hin].
  split_and!; try done.
  - apply Forall_forall. intros sig Hsig.
    pose proof (feed_lines_wf _ _ _ _ reachable_new Hfeed) as Hwf.
    rewrite Forall_forall in Hwf. apply Hwf. by apply Hin.
  - intros sig Hsig. by apply Hin.
  - intros sig Hsig.
    destruct (fresh_signals_keys sigs ∅ sig Hsig) as [Hk|Hk]; [|done].
    by apply elem_of_empty in Hk.
Qed.

Lemma one_shot_keeps_first_of_each_key_witness :
  ∃ out,
    parse_file_once [line_asset; line_put; line_put; line_call] = Returned out
    ∧ List.length out = 2%nat
    ∧ NoDup (key <$> out).
Proof.
  destruct (parse_file_once [line_asset; line_put; line_put; line_call])
    as [out|e] eqn:Hout; [|by vm_compute in Hout].
  exists out. split; [reflexivity|].
  split; [by vm_compute in Hout; injection Hout as <-|].
  destruct (one_shot_keeps_first_of_each_key _ out Hout)
    as (sigs & p' & _ & _ & Hnd & _).
  exact Hnd.
Defined.

(** X6.  For well-formed signals the key tells the asset, the trade time and
    the direction apart: two signals have the same key exactly when they
    agree on all three. *)
Theorem key_tells_asset_time_direction (sig1 sig2 : TelegramSignal) :
  signal_wf sig1 → signal_wf sig2 →
  key sig1 = key sig2
  ↔ asset sig1 = asset sig2 ∧ trade_time sig1 = trade_time sig2
    ∧ direction sig1 = direction sig2.
Proof.
  intros H1 H2. split; [by apply key_determines|].
  intros (Ha & Ht & Hd). unfold key. by rewrite Ha, Ht, Hd.
Qed.

Lemma sample_signal_wf q : (0 <= q)%Q → signal_wf (sample_signal q).
Proof.
  intros Hq. unfold signal_wf, sample_signal. cbn [asset direction
    timeframe_min trade_time trend forecast_pct payout_pct].
  split_and!.
  - split; [done|]. apply Forall_forall. intros c Hc.
    repeat (apply elem_of_cons in Hc as [-> | Hc]; [reflexivity|]).
    by apply elem_of_nil in Hc.
  - by right.
  - intros n [= <-]. done.
  - intros v [= <-]. split.
    + apply Forall_forall. intros c Hc.
      repeat (apply elem_of_cons in Hc as [-> | Hc];
              [first [by left | by right]|]).
      by apply elem_of_nil in Hc.
    + exists 23%Z, 10%Z, 0%Z. split; [by repeat split|lia].
  - intros v [= <-]. by right.
  - by intros x [= <-].
  - intros x [= <-]. done.
Qed.

Lemma key_tells_asset_time_direction_witness :
  signal_wf (sample_signal 60) ∧ signal_wf (sample_signal 75)
  ∧ key (sample_signal 60) = key (sample_signal 75).
Proof.
  assert (H1 : signal_wf (sample_signal 60)) by (by apply sample_signal_wf).
  assert (H2 : signal_wf (sample_signal 75)) by (by apply sample_signal_wf).
  split; [exact H1|]. split; [exact H2|].
  by apply (key_tells_asset_time_direction _ _ H1 H2).
Defined.



End one_shot.

(** ** More on directions, the resolver and the follower *)

Section glyphs.
Local Open Scope N_scope.

Lemma lower_cp_not_178 c : 0x178 ∉ lower_cp c.
Proof.
  unfold lower_cp, even_odd_pairs, odd_even_pairs.
  repeat case_match;
    rewrite ?elem_of_cons, elem_of_nil; intros Hin;
    repeat match goal with
      | H : _ && _ = true |- _ => apply andb_true_iff in H as [? ?]
      | H : _ || _ = true |- _ => apply orb_true_iff in H as [?|?]
      | H : negb _ = true |- _ => apply negb_true_iff in H
      | H : (_ <=? _) = true |- _ => apply N.leb_le in H
      | H : (_ =? _) = true |- _ => apply N.eqb_eq in H
      | H : (_ =? _) = false |- _ => apply N.eqb_neq in H
      end;
    try lia;
    try (assert (c = 0x177) as -> by lia; done).
Qed.

Lemma lower_not_178 s : 0x178 ∉ lower s.
Proof.
  unfold lower. induction s as [|c s IH]; cbn [flat_map].
  - by intros ?%elem_of_nil.
  - intros [?|?]%elem_of_app; [by eapply lower_cp_not_178|done].
Qed.

Lemma startswith_elem p : ∀ s x,
  startswith s p = true → x ∈ p → x ∈ s.
Proof.
  induction p as [|y p IH]; intros s x; [by intros _ ?%elem_of_nil|].
  destruct s as [|z s]; [done|]. cbn [startswith].
  intros [->%N.eqb_eq Hs]%andb_true_iff [-> | Hx]%elem_of_cons.
  - by left.
  - right. by eapply IH.
Qed.

Lemma contains_elem p s x : contains p s = true → x ∈ p → x ∈ s.
Proof.
  induction s as [|c s IH]; cbn [contains].
  - rewrite orb_false_r. apply startswith_elem.
  - intros [Hs | Hc]%orb_true_iff Hx; [by eapply startswith_elem|].
    right. by apply IH.
Qed.

Lemma glyph_not_in_lower g s :
  0x178 ∈ g → contains g (lower s) = false.
Proof.
  intros Hg. destruct (contains g (lower s)) eqn:Hc; [|done].
  destruct (lower_not_178 s). by eapply contains_elem.
Qed.

(** X8.  No line gets its direction from a glyph.  The glyphs are spelled
    with U+0178, which no lower-cased string holds, so both glyph tests fail
    on every line; a line has a direction only through a space followed by
    call or put, or through one of the two as a whole word. *)
Theorem glyphs_never_match (s : pystr) :
  contains UP_MARK (lower s) = false
  ∧ contains DOWN_MARK (lower s) = false
  ∧ (is_Some (_normalize_direction_from_line s)
     ↔ contains (lit " call") (lower s) = true
       ∨ contains (lit " put") (lower s) = true
       ∨ is_Some (_DIRECTION_WORD_RE s)).
Proof.
  assert (Hup : contains UP_MARK (lower s) = false)
    by (apply glyph_not_in_lower; by repeat constructor).
  assert (Hdown : contains DOWN_MARK (lower s) = false)
    by (apply glyph_not_in_lower; by repeat constructor).
  split; [done|]. split; [done|].
  unfold _normalize_direction_from_line. rewrite Hup, Hdown. cbn [orb].
  destruct (contains (lit " call") (lower s)).
  { split; [by left|by eexists]. }
  destruct (contains (lit " put") (lower s)).
  { split; [by right; left|by eexists]. }
  destruct (_DIRECTION_WORD_RE s) as [g|].
  - split; [by right; right|by eexists].
  - split; [by intros [? ?]|]. intros [?|[?|[? ?]]]; done.
Qed.

End glyphs.

Section resolver_more.
Local Open Scope Z_scope.









End resolver_more.

Section follower.

Lemma handle_unseen cfg cb t1 t2 t3 t4 self sig :
  key (signal sig) ∉ seen_keys self →
  let v := _filter cfg (cooldowns self) t1 sig in
  seen_keys (_handle_signal cfg cb t1 t2 t3 t4 self sig)
  = seen_keys self ∪ {[ key (signal sig) ]}
  ∧ cooldowns (_handle_signal cfg cb t1 t2 t3 t4 self sig)
    = <[asset (signal sig) := (t4 + cooldown_same_asset_s cfg)%Q]>
        (cooldowns self).
Proof.
  intros Hnew v. unfold _handle_signal.
  rewrite bool_decide_eq_false_2 by done. simpl.
  by destruct (filter_signal cfg (cooldowns self) t1 sig) as (-> & _).
Qed.

(** X11.  Handling a signal a second time, or any signal with the same key,
    changes nothing: not the cool-downs, not the output, and no callback is
    awaited. *)
Theorem handling_again_is_a_no_op (cfg : S19Config)
    (cb cb' : option (ScheduledTelegramSignal → outcome unit))
    (t1 t2 t3 t4 t1' t2' t3' t4' : Q)
    (self : Strategy19Follower) (sig sig' : ScheduledTelegramSignal) :
  key (signal sig') = key (signal sig) →
  _handle_signal cfg cb' t1' t2' t3' t4'
    (_handle_signal cfg cb t1 t2 t3 t4 self sig) sig'
  = _handle_signal cfg cb t1 t2 t3 t4 self sig.
Proof.
  intros Hkey.
  assert (key (signal sig)
          ∈ seen_keys (_handle_signal cfg cb t1 t2 t3 t4 self sig)) as Hin.
  { destruct (decide (key (signal sig) ∈ seen_keys self)) as [Hs|Hs].
    - unfold _handle_signal. by rewrite bool_decide_eq_true_2.
    - destruct (handle_unseen cfg cb t1 t2 t3 t4 self sig Hs) as [-> _].
      set_solver. }
  unfold _handle_signal at 1. rewrite Hkey.
  by rewrite bool_decide_eq_true_2.
Qed.

Lemma handling_again_is_a_no_op_witness :
  key (signal (sample_scheduled 75 None))
  = key (signal (sample_scheduled 80 None))
  ∧ _handle_signal sample_cfg None 2000 2000 2000 2001
      (_handle_signal sample_cfg None 1000 1000 1000 1001 sample_follower
         (sample_scheduled 80 None))
      (sample_scheduled 75 None)
    = _handle_signal sample_cfg None 1000 1000 1000 1001 sample_follower
        (sample_scheduled 80 None).
Proof.
  split; [reflexivity|].
  exact (handling_again_is_a_no_op sample_cfg None None
           1000 1000 1000 1001 2000 2000 2000 2001 sample_follower
           (sample_scheduled 80 None) (sample_scheduled 75 None) eq_refl).
Defined.

(** X12.  After a signal with a new key is handled, the filter ignores with
    the cool-down reason every signal for the same asset whose forecast
    passes, as long as the clock is before the reading at which the
    cool-down was set plus its duration; from then on the cool-down rule no
    longer fires for it; and the cool-downs of other assets are as they
    were. *)
Theorem cooldown_blocks_same_asset (cfg : S19Config)
    (cb : option (ScheduledTelegramSignal → outcome unit))
    (t1 t2 t3 t_set : Q)
    (self : Strategy19Follower) (sig : ScheduledTelegramSignal) :
  key (signal sig) ∉ seen_keys self →
  let self' := _handle_signal cfg cb t1 t2 t3 t_set self sig in
  (∀ sig' now,
     asset (signal sig') = asset (signal sig) →
     forecast_below cfg sig' = false →
     (now < t_set + cooldown_same_asset_s cfg)%Q →
     ignored (_filter cfg (cooldowns self') now sig') = true
     ∧ reason (_filter cfg (cooldowns self') now sig')
       = reason_asset_cooldown)
  ∧ (∀ sig' now,
       asset (signal sig') = asset (signal sig) →
       ¬ (now < t_set + cooldown_same_asset_s cfg)%Q →
       cooldown_active (cooldowns self') now sig' = false)
  ∧ (∀ a, a ≠ asset (signal sig) →
          cooldowns self' !! a = cooldowns self !! a).
Proof.
  intros Hnew self'.
  destruct (handle_unseen cfg cb t1 t2 t3 t_set self sig Hnew) as [_ Hcd].
  fold self' in Hcd.
  assert (Hactive : ∀ sig' now,
            asset (signal sig') = asset (signal sig) →
            cooldown_active (cooldowns self') now sig'
            = Qltb now (t_set + cooldown_same_asset_s cfg)).
  { intros sig' now Ha. unfold cooldown_active.
    by rewrite Hcd, Ha, lookup_insert_eq. }
  split_and!.
  - intros sig' now Ha Hf Hlt. unfold _filter.
    rewrite Hf, (Hactive _ _ Ha), (proj2 (Qltb_lt _ _) Hlt). done.
  - intros sig' now Ha Hge. rewrite (Hactive _ _ Ha).
    by apply Qltb_ge.
  - intros a Hne. rewrite Hcd. by apply lookup_insert_ne.
Qed.

Lemma cooldown_blocks_same_asset_witness :
  (key (signal (sample_scheduled 80 None)) ∉ seen_keys sample_follower)
  ∧ reason (_filter sample_cfg
              (cooldowns (_handle_signal sample_cfg None 1000 1000 1000 1001
                            sample_follower (sample_scheduled 80 None)))
              1050 (sample_scheduled 90 None))
    = reason_asset_cooldown.
Proof.
  assert (Hnew : key (signal (sample_scheduled 80 None))
                 ∉ seen_keys sample_follower) by set_solver.
  split; [exact Hnew|].
  destruct (cooldown_blocks_same_asset sample_cfg None 1000 1000 1000 1001
              sample_follower (sample_scheduled 80 None) Hnew)
    as (Hblock & _).
  apply (Hblock (sample_scheduled 90 None) 1050%Q); reflexivity.
Defined.

(** X13.  A signal the filter ignores is logged and printed and nothing
    else: no callback is awaited for it; the same holds for every signal
    when trading is switched off. *)
Theorem ignored_signal_is_never_executed (cfg : S19Config)
    (cb : option (ScheduledTelegramSignal → outcome unit))
    (t1 t2 t3 t4 : Q)
    (self : Strategy19Follower) (sig : ScheduledTelegramSignal) :
  key (signal sig) ∉ seen_keys self →
  let v := _filter cfg (cooldowns self) t1 sig in
  trade cfg = false ∨ ignored v = true →
  output (_handle_signal cfg cb t1 t2 t3 t4 self sig)
  = output self
    ++ [log_row v (seconds_until_entry t2 v);
        print_summary v (seconds_until_entry t3 v)].
Proof.
  intros Hnew v Hoff. unfold _handle_signal.
  rewrite bool_decide_eq_false_2 by done. simpl. fold v.
  destruct cb as [f|]; [|done].
  destruct Hoff as [-> | ->]; [done|]. by rewrite andb_false_r.
Qed.

Lemma ignored_signal_is_never_executed_witness :
  (key (signal (sample_scheduled 60 None)) ∉ seen_keys sample_follower)
  ∧ ignored (_filter sample_cfg ∅ 1000 (sample_scheduled 60 None)) = true
  ∧ List.length
      (output (_handle_signal sample_cfg (Some failing_cb) 1000 1000 1000
                 1001 sample_follower (sample_scheduled 60 None)))
    = 2%nat.
Proof.
  assert (Hnew : key (signal (sample_scheduled 60 None))
                 ∉ seen_keys sample_follower) by set_solver.
  split; [exact Hnew|]. split; [reflexivity|].
  rewrite (ignored_signal_is_never_executed sample_cfg (Some failing_cb)
             1000 1000 1000 1001 sample_follower (sample_scheduled 60 None)
             Hnew); [reflexivity|by right].
Defined.

Lemma replace_char_no_old old new s :
  old ∉ new → old ∉ replace_char old new s.
Proof.
  intros Hnew. unfold replace_char.
  induction s as [|c s IH]; cbn [flat_map]; [by intros ?%elem_of_nil|].
  intros [Hin | Hin]%elem_of_app; [|done].
  destruct (c =? old)%N eqn:Hc; [done|].
  apply N.eqb_neq in Hc. apply elem_of_cons in Hin as [-> | Hin]; [done|].
  by apply elem_of_nil in Hin.
Qed.

(** X14.  The row written to the CSV log has one cell for each column of the
    header, and its last cell, the raw block, is a text of at most 200
    characters that holds no line feed. *)
Theorem log_row_matches_header (ts_local : pystr) (now : Q)
    (sig : ScheduledTelegramSignal) :
  List.length (log_cells ts_local now sig) = List.length _HEADER
  ∧ ∃ raw,
      last (log_cells ts_local now sig) = Some (cell_text raw)
      ∧ (List.length raw <= 200)%nat
      ∧ 0x0A%N ∉ raw.
Proof.
  split; [done|]. eexists. split; [done|]. split.
  - rewrite length_take. lia.
  - intros Hin. apply (subseteq_take 200) in Hin. revert Hin.
    apply replace_char_no_old.
    apply (bool_decide_eq_false_1 _). reflexivity.
Qed.

End follower.
